(** * DynamicTable: a paginated, sortable table widget

    A shallow embedding of
    [kbase-extension/static/kbase/js/widgets/dynamicTable.js].

    The widget object, the DOM nodes it owns and the parts of the
    environment it talks to (the caller's fetch callback, [alert],
    [console.error], the row arrays handed over by the caller) are
    gathered in one record, [Widget]; every method is a function on that
    record.  User actions and promise settlements are [Event]s.

    Modelling conventions
    - JavaScript numbers that hold page indices, offsets and counts are
      integers ([Z]); the development is about integer values in the range
      where JavaScript arithmetic is exact.
    - JavaScript strings are [string]s whose characters stand for the code
      units U+0000..U+00FF.
    - Row arrays live in a store shared by the caller and the
      widget, and a page response refers to them by location, because
      [setData] assigns into the arrays it is given.  They are ordinary
      arrays of strings, extensible and writable, with the properties of
      [Array.prototype] as the engine sets them up.
    - A method that can throw returns what it throws beside the state it
      leaves; the engine's limits on memory and on the length of a string
      are not modelled. *)

From Stdlib Require Import ZArith String Ascii List Lia DecimalString.
From stdpp Require Import gmap strings list fin_maps.

Local Open Scope string_scope.

(** ** JavaScript values and strings *)

(** The values that travel to the fetch callback. *)
Inductive jsval : Type :=
| Undefined
| Null
| Num (n : Z)
| Str (s : string).

(** [String(n)] for an integer [n]. *)
Definition string_of_Z (n : Z) : string :=
  NilZero.string_of_int (Z.to_int n).

(** [\s] together with U+00A0, the characters removed by [$.trim]
    (restricted to code units below 256). *)
Definition is_space (c : ascii) : bool :=
  let n := nat_of_ascii c in
  ((9 <=? n)%nat && (n <=? 13)%nat) || (n =? 32)%nat || (n =? 160)%nat.

Fixpoint ltrim (s : string) : string :=
  match s with
  | EmptyString => EmptyString
  | String c r => if is_space c then ltrim r else s
  end.

Fixpoint rtrim (s : string) : string :=
  match s with
  | EmptyString => EmptyString
  | String c r =>
      match rtrim r with
      | EmptyString => if is_space c then EmptyString else String c EmptyString
      | r' => String c r'
      end
  end.

(** [$.trim(text)]: whitespace is removed at both ends. *)
Definition trim (s : string) : string := rtrim (ltrim s).

(** [array.join()] with the default separator. *)
Fixpoint join_comma (l : list string) : string :=
  match l with
  | [] => ""
  | [x] => x
  | x :: r => x +:+ "," +:+ join_comma r
  end.

(** ** Row arrays *)

(** What a decoration rule's [col] is: [ColIdx i] is the number [i], a
    position (below 2^32 - 1), and [ColName s] is the string [s], such as
    a column id. *)
Inductive ColKey : Type :=
| ColIdx (i : nat)
| ColName (s : string).

#[global] Instance ColKey_eq_dec : EqDecision ColKey.
Proof. solve_decision. Defined.

(** The exceptions the code can raise on a row array. *)
Inductive JsError : Type :=
| RangeError    (* a text that is no number assigned to [length] *)
| TypeError.    (* [row.map], when it is no function, called *)

Definition error_name (e : JsError) : string :=
  match e with
  | RangeError => "RangeError"
  | TypeError => "TypeError"
  end.

(** A step that returns or throws. *)
Inductive Try (A : Type) : Type :=
| Done (a : A)
| Thrown (e : JsError).
Arguments Done {A} a.
Arguments Thrown {A} e.

(** A JavaScript array of cell texts: the indexed elements, where [None] is
    a hole, and the own properties that are neither an index nor [length].
    Row arrays are referred to by location, a [nat], in a store of type
    [gmap nat Row]. *)
Record Row : Type := mkRow {
  elems : list (option string);
  props : gmap string string
}.

Definition is_digit (c : ascii) : bool :=
  ((48 <=? nat_of_ascii c) && (nat_of_ascii c <=? 57))%nat.

(** The number written by a string of digits. *)
Fixpoint digits_value (acc : N) (s : string) : option N :=
  match s with
  | EmptyString => Some acc
  | String c r =>
      if is_digit c
      then digits_value (acc * 10 + N.of_nat (nat_of_ascii c - 48)) r
      else None
  end.

(** The array index a property name stands for: the name is the decimal
    form, without leading zero, of a number below 2^32 - 1. *)
Definition index_of_name (s : string) : option nat :=
  match s with
  | EmptyString => None
  | String c r =>
      if Ascii.eqb c "0" && negb (String.eqb r EmptyString) then None
      else match digits_value 0 s with
           | Some n => if (n <? 4294967295)%N then Some (N.to_nat n) else None
           | None => None
           end
  end.

(** How an array takes a property key: as an index, as its length, as its
    prototype, or as a name. *)
Inductive PropKey : Type :=
| PIndex (i : nat)
| PLength
| PProto
| PNamed (s : string).

#[global] Instance PropKey_eq_dec : EqDecision PropKey.
Proof. solve_decision. Defined.

Definition prop_key (k : ColKey) : PropKey :=
  match k with
  | ColIdx i => PIndex i
  | ColName s =>
      match index_of_name s with
      | Some i => PIndex i
      | None =>
          if String.eqb s "length" then PLength
          else if String.eqb s "__proto__" then PProto
          else PNamed s
      end
  end.

(** The text of a built-in function, as V8 prints it. *)
Definition native_function (name : string) : string :=
  "function " +:+ name +:+ "() { [native code] }".

(** The methods an array inherits from [Array.prototype] and
    [Object.prototype] (ECMAScript 2023). *)
Definition inherited_methods : list string :=
  ["at"; "concat"; "copyWithin"; "entries"; "every"; "fill"; "filter";
   "find"; "findIndex"; "findLast"; "findLastIndex"; "flat"; "flatMap";
   "forEach"; "includes"; "indexOf"; "join"; "keys"; "lastIndexOf"; "map";
   "pop"; "push"; "reduce"; "reduceRight"; "reverse"; "shift"; "slice";
   "some"; "sort"; "splice"; "toLocaleString"; "toReversed"; "toSorted";
   "toSpliced"; "toString"; "unshift"; "values"; "with";
   "hasOwnProperty"; "isPrototypeOf"; "propertyIsEnumerable"; "valueOf";
   "__defineGetter__"; "__defineSetter__"; "__lookupGetter__";
   "__lookupSetter__"].

(** The text of the property an array inherits under a name, if it
    inherits one: a method, or [constructor], which is [Array]. *)
Definition array_inherited (s : string) : option string :=
  if String.eqb s "constructor" then Some (native_function "Array")
  else if existsb (String.eqb s) inherited_methods
       then Some (native_function s)
       else None.

(** [row[k]], by the text it adds to a string; [None] is [undefined].  The
    length reads as a number, the prototype, an empty array, as the empty
    text, and a name as the own property or else the inherited one. *)
Definition row_get (r : Row) (k : ColKey) : option string :=
  match prop_key k with
  | PIndex i => mjoin (elems r !! i)
  | PLength => Some (string_of_Z (Z.of_nat (length (elems r))))
  | PProto => Some EmptyString
  | PNamed s =>
      match props r !! s with
      | Some v => Some v
      | None => array_inherited s
      end
  end.

(** [row[k] = v], for a text [v] that is no number, as the markup of a
    decoration is.  An index past the end extends the array and leaves
    holes in between; the length does not take such a text, and the
    assignment throws; the prototype ignores it; a name becomes an own
    property. *)
Definition row_set (r : Row) (k : ColKey) (v : string) : Try Row :=
  match prop_key k with
  | PIndex i =>
      if (i <? length (elems r))%nat
      then Done (mkRow (<[i := Some v]> (elems r)) (props r))
      else Done (mkRow (elems r ++ replicate (i - length (elems r)) None
                          ++ [Some v]) (props r))
  | PLength => Thrown RangeError
  | PProto => Done r
  | PNamed s => Done (mkRow (elems r) (<[s := v]> (props r)))
  end.

(** The string a cell value becomes under [+]. *)
Definition cell_text (c : option string) : string :=
  match c with
  | Some s => s
  | None => "undefined"
  end.

(** ** Configuration *)

Record Header : Type := mkHeader {
  h_id : string;
  h_text : string;
  isSortable : bool;
  sortState : Z
}.

Record Decoration : Type := mkDecoration {
  col : ColKey;
  dtype : string;
  clickFunction : option string   (* the name of the callback, when given *)
}.

Record Options : Type := mkOptions {
  o_rowsPerPage : option Z;
  o_headers : list Header;
  o_decoration : list Decoration
}.

(** The page handed back by [updateFunction]. *)
Record PageData : Type := mkPageData {
  d_rows : list nat;
  d_start : Z;
  d_total : Z
}.

(** How the promise returned by [updateFunction] settles. *)
Inductive Outcome : Type :=
| Resolved (data : PageData)
| Rejected (error : string).

(** The arguments of one [updateFunction] call. *)
Record FetchCall : Type := mkFetchCall {
  f_page : Z;
  f_query : jsval;
  f_sortId : jsval;
  f_sortDir : jsval
}.

(** ** The widget *)

(** [this.currentSort] is either the object made by the constructor,
    [{id: null, dir: null}], or one of the header objects. *)
Inductive SortRef : Type :=
| InitialSort
| HeaderRef (i : nat).

(** One [<tr>] of the table body: the markup it was built from, the inner
    markup of its [<td>] elements in document order, and the click handlers
    bound in it (position of the [<td>], callback). *)
Record RenderedRow : Type := mkRenderedRow {
  tr_html : string;
  tr_cells : list string;
  tr_handlers : list (nat * string)
}.

Record Widget : Type := mkWidget {
  (** The widget object. *)
  rowsPerPage : Z;
  currentPage : Z;
  currentQuery : jsval;
  currentSort : SortRef;
  total : Z;
  start : Z;
  end_ : Z;
  headers : list Header;
  decoration : list Decoration;
  (** The DOM nodes it owns: the spinner, the class of each header's sort
      icon ([None] where the header has no sort button), the table body
      and the footer text. *)
  loadingShown : bool;
  sortIcons : list (option string);
  tBody : list RenderedRow;
  shownText : string;
  (** The environment: the [updateFunction] calls made so far, the number
      of promises not yet settled, the [alert] and [console.error]
      messages, the row arrays shared with the caller, and the
      [clickFunction] invocations (callback, argument). *)
  calls : list FetchCall;
  pending : nat;
  alerts : list string;
  errorLog : list string;
  rows : gmap nat Row;
  clicked : list (string * string)
}.

(** Field updates. *)
Definition set_currentPage (v : Z) (w : Widget) : Widget :=
  mkWidget (rowsPerPage w) v (currentQuery w) (currentSort w) (total w)
    (start w) (end_ w) (headers w) (decoration w) (loadingShown w) (sortIcons
    w) (tBody w) (shownText w) (calls w) (pending w) (alerts w) (errorLog w)
    (rows w) (clicked w).

Definition set_currentQuery (v : jsval) (w : Widget) : Widget :=
  mkWidget (rowsPerPage w) (currentPage w) v (currentSort w) (total w)
    (start w) (end_ w) (headers w) (decoration w) (loadingShown w) (sortIcons
    w) (tBody w) (shownText w) (calls w) (pending w) (alerts w) (errorLog w)
    (rows w) (clicked w).

Definition set_currentSort (v : SortRef) (w : Widget) : Widget :=
  mkWidget (rowsPerPage w) (currentPage w) (currentQuery w) v (total w)
    (start w) (end_ w) (headers w) (decoration w) (loadingShown w) (sortIcons
    w) (tBody w) (shownText w) (calls w) (pending w) (alerts w) (errorLog w)
    (rows w) (clicked w).

Definition set_total (v : Z) (w : Widget) : Widget :=
  mkWidget (rowsPerPage w) (currentPage w) (currentQuery w) (currentSort w)
    v (start w) (end_ w) (headers w) (decoration w) (loadingShown w)
    (sortIcons w) (tBody w) (shownText w) (calls w) (pending w) (alerts w)
    (errorLog w) (rows w) (clicked w).

Definition set_start (v : Z) (w : Widget) : Widget :=
  mkWidget (rowsPerPage w) (currentPage w) (currentQuery w) (currentSort w)
    (total w) v (end_ w) (headers w) (decoration w) (loadingShown w)
    (sortIcons w) (tBody w) (shownText w) (calls w) (pending w) (alerts w)
    (errorLog w) (rows w) (clicked w).

Definition set_end_ (v : Z) (w : Widget) : Widget :=
  mkWidget (rowsPerPage w) (currentPage w) (currentQuery w) (currentSort w)
    (total w) (start w) v (headers w) (decoration w) (loadingShown w)
    (sortIcons w) (tBody w) (shownText w) (calls w) (pending w) (alerts w)
    (errorLog w) (rows w) (clicked w).

Definition set_headers (v : list Header) (w : Widget) : Widget :=
  mkWidget (rowsPerPage w) (currentPage w) (currentQuery w) (currentSort w)
    (total w) (start w) (end_ w) v (decoration w) (loadingShown w) (sortIcons
    w) (tBody w) (shownText w) (calls w) (pending w) (alerts w) (errorLog w)
    (rows w) (clicked w).

Definition set_loadingShown (v : bool) (w : Widget) : Widget :=
  mkWidget (rowsPerPage w) (currentPage w) (currentQuery w) (currentSort w)
    (total w) (start w) (end_ w) (headers w) (decoration w) v (sortIcons w)
    (tBody w) (shownText w) (calls w) (pending w) (alerts w) (errorLog w)
    (rows w) (clicked w).

Definition set_sortIcons (v : list (option string)) (w : Widget) : Widget :=
  mkWidget (rowsPerPage w) (currentPage w) (currentQuery w) (currentSort w)
    (total w) (start w) (end_ w) (headers w) (decoration w) (loadingShown w) v
    (tBody w) (shownText w) (calls w) (pending w) (alerts w) (errorLog w)
    (rows w) (clicked w).

Definition set_tBody (v : list RenderedRow) (w : Widget) : Widget :=
  mkWidget (rowsPerPage w) (currentPage w) (currentQuery w) (currentSort w)
    (total w) (start w) (end_ w) (headers w) (decoration w) (loadingShown w)
    (sortIcons w) v (shownText w) (calls w) (pending w) (alerts w) (errorLog
    w) (rows w) (clicked w).

Definition set_shownText (v : string) (w : Widget) : Widget :=
  mkWidget (rowsPerPage w) (currentPage w) (currentQuery w) (currentSort w)
    (total w) (start w) (end_ w) (headers w) (decoration w) (loadingShown w)
    (sortIcons w) (tBody w) v (calls w) (pending w) (alerts w) (errorLog w)
    (rows w) (clicked w).

Definition set_calls (v : list FetchCall) (w : Widget) : Widget :=
  mkWidget (rowsPerPage w) (currentPage w) (currentQuery w) (currentSort w)
    (total w) (start w) (end_ w) (headers w) (decoration w) (loadingShown w)
    (sortIcons w) (tBody w) (shownText w) v (pending w) (alerts w) (errorLog
    w) (rows w) (clicked w).

Definition set_pending (v : nat) (w : Widget) : Widget :=
  mkWidget (rowsPerPage w) (currentPage w) (currentQuery w) (currentSort w)
    (total w) (start w) (end_ w) (headers w) (decoration w) (loadingShown w)
    (sortIcons w) (tBody w) (shownText w) (calls w) v (alerts w) (errorLog w)
    (rows w) (clicked w).

Definition set_alerts (v : list string) (w : Widget) : Widget :=
  mkWidget (rowsPerPage w) (currentPage w) (currentQuery w) (currentSort w)
    (total w) (start w) (end_ w) (headers w) (decoration w) (loadingShown w)
    (sortIcons w) (tBody w) (shownText w) (calls w) (pending w) v (errorLog w)
    (rows w) (clicked w).

Definition set_errorLog (v : list string) (w : Widget) : Widget :=
  mkWidget (rowsPerPage w) (currentPage w) (currentQuery w) (currentSort w)
    (total w) (start w) (end_ w) (headers w) (decoration w) (loadingShown w)
    (sortIcons w) (tBody w) (shownText w) (calls w) (pending w) (alerts w) v
    (rows w) (clicked w).

Definition set_rows (v : gmap nat Row) (w : Widget) : Widget :=
  mkWidget (rowsPerPage w) (currentPage w) (currentQuery w) (currentSort w)
    (total w) (start w) (end_ w) (headers w) (decoration w) (loadingShown w)
    (sortIcons w) (tBody w) (shownText w) (calls w) (pending w) (alerts w)
    (errorLog w) v (clicked w).

Definition set_clicked (v : list (string * string)) (w : Widget) : Widget :=
  mkWidget (rowsPerPage w) (currentPage w) (currentQuery w) (currentSort w)
    (total w) (start w) (end_ w) (headers w) (decoration w) (loadingShown w)
    (sortIcons w) (tBody w) (shownText w) (calls w) (pending w) (alerts w)
    (errorLog w) (rows w) v.

(** ** Markup *)

Definition dquote : string := String (ascii_of_nat 34) EmptyString.

(** ['<a style="cursor:pointer">'] and
    ['<button class="btn btn-default btn-sm">']. *)
Definition link_open : string :=
  "<a style=" +:+ dquote +:+ "cursor:pointer" +:+ dquote +:+ ">".
Definition link_close : string := "</a>".
Definition button_open : string :=
  "<button class=" +:+ dquote +:+ "btn btn-default btn-sm" +:+ dquote +:+ ">".
Definition button_close : string := "</button>".

(** The text content of an element, read from the markup that follows its
    opening tag: tags are dropped, and reading stops at the closing tag of
    the element itself.  The markup is taken to consist of plain text,
    which the parser hands on as written, and of elements that are closed
    explicitly and nest as written. *)
Fixpoint elem_text (depth : nat) (in_tag : bool) (s : string) : string :=
  match s with
  | EmptyString => EmptyString
  | String c r =>
      if in_tag then
        if Ascii.eqb c ">" then elem_text depth false r
        else elem_text depth true r
      else if Ascii.eqb c "<" then
        match r with
        | String "/" _ =>
            match depth with
            | O => EmptyString
            | S d => elem_text d true r
            end
        | _ => elem_text (S depth) true r
        end
      else String c (elem_text depth false r)
  end.

(** What follows the next [>]. *)
Fixpoint after_tag (s : string) : string :=
  match s with
  | EmptyString => EmptyString
  | String c r => if Ascii.eqb c ">" then r else after_tag r
  end.

(** [$td.children().eq(0).text()]: the text of the first child element of a
    cell with the given inner markup, when it has one. *)
Fixpoint first_child_text (html : string) : option string :=
  match html with
  | EmptyString => None
  | String c r =>
      if Ascii.eqb c "<" then
        match r with
        | String "/" _ => None
        | _ => Some (elem_text 0 false (after_tag r))
        end
      else first_child_text r
  end.

(** ** Methods *)

(** [getPrevPage] *)
Definition getPrevPage (w : Widget) : Widget * Z :=
  let w1 := set_currentPage (currentPage w - 1) w in
  let w2 := if (currentPage w1 <? 0)%Z then set_currentPage 0 w1 else w1 in
  (w2, currentPage w2).

(** [getNextPage] *)
Definition getNextPage (w : Widget) : Widget * Z :=
  let w1 := set_currentPage (currentPage w + 1) w in
  let w2 := if (currentPage w1 * rowsPerPage w1 >=? total w1)%Z
            then set_currentPage (currentPage w1 - 1) w1 else w1 in
  (w2, currentPage w2).

(** [this.currentSort.id] and [this.currentSort.sortState]. *)
Definition currentSort_id (w : Widget) : jsval :=
  match currentSort w with
  | InitialSort => Null
  | HeaderRef i =>
      match headers w !! i with
      | Some h => Str (h_id h)
      | None => Undefined
      end
  end.

Definition currentSort_sortState (w : Widget) : jsval :=
  match currentSort w with
  | InitialSort => Undefined
  | HeaderRef i =>
      match headers w !! i with
      | Some h => Num (sortState h)
      | None => Undefined
      end
  end.

(** [getNewData], up to the point where it has called [updateFunction]
    and chained its handlers on the promise. *)
Definition getNewData (w : Widget) : Widget :=
  let w1 := set_loadingShown true w in
  let call := mkFetchCall (currentPage w1) (currentQuery w1)
                (currentSort_id w1) (currentSort_sortState w1) in
  set_pending (S (pending w1)) (set_calls (calls w1 ++ [call]) w1).

(** The [row[dec.col] = ...] step of [setData] for one rule. *)
Definition decorate (r : Row) (dec : Decoration) : Try Row :=
  if String.eqb (dtype dec) "link" then
    row_set r (col dec)
      (link_open +:+ cell_text (row_get r (col dec)) +:+ link_close)
  else if String.eqb (dtype dec) "button" then
    row_set r (col dec)
      (button_open +:+ cell_text (row_get r (col dec)) +:+ button_close)
  else Done r.

(** The first [this.options.decoration.forEach] of [setData]: the rules are
    applied in order to the array, which keeps what was written when a
    rule throws. *)
Fixpoint decorate_all (r : Row) (decs : list Decoration)
  : Row * option JsError :=
  match decs with
  | [] => (r, None)
  | dec :: rest =>
      match decorate r dec with
      | Done r' => decorate_all r' rest
      | Thrown e => (r, Some e)
      end
  end.

(** The markup [tableRow] gives to [$('<tr>').append]. *)
Definition tableRow_markup (r : Row) : string :=
  join_comma
    (map (fun c => match c with
                   | Some d => "<td>" +:+ d +:+ "</td>"
                   | None => ""
                   end) (elems r)).

(** [tableRow]: [data.map] throws when the array has an own property [map],
    a text and no function, and (from ECMAScript 2015 on) when it has an
    own property [constructor], a text and no constructor. *)
Definition tableRow (r : Row) : Try string :=
  match props r !! "map", props r !! "constructor" with
  | None, None => Done (tableRow_markup r)
  | _, _ => Thrown TypeError
  end.

(** The [<td>] elements that markup yields, by their inner markup: one for
    each element of the array that is not a hole.  This is the row as the
    HTML parser builds it when each cell is plain text or the markup of one
    decoration around plain text; markup of the caller's own in a cell is
    beyond it. *)
Definition tableRow_cells (r : Row) : list string := omap id (elems r).

(** [$newRow.find('td:eq(' + dec.col + ') > :eq(0)')], by the position of
    the [<td>]: nothing is found when [dec.col] is a name, when there is no
    such [<td>], or when it has no child element.  A name here is a word
    that is no number in any spelling; with other strings in the selector
    the search is beyond this model. *)
Definition find_clickElem (cells : list string) (k : ColKey) : option nat :=
  match prop_key k with
  | PIndex i =>
      match cells !! i ≫= first_child_text with
      | Some _ => Some i
      | None => None
      end
  | _ => None
  end.

(** The click bindings of one row. *)
Definition bind_clicks (cells : list string) (decs : list Decoration)
  : list (nat * string) :=
  flat_map (fun dec =>
              match clickFunction dec with
              | Some f =>
                  match find_clickElem cells (col dec) with
                  | Some i => [(i, f)]
                  | None => []
                  end
              | None => []
              end) decs.

(** The body of the [data.forEach] callback of [setData]: the row array at
    [l] is decorated in place, rendered and appended to the body.  When a
    rule or [tableRow] throws, the array keeps what was written and no row
    is appended. *)
Definition setData_row (decs : list Decoration)
  (st : gmap nat Row * list RenderedRow) (l : nat)
  : (gmap nat Row * list RenderedRow) * option JsError :=
  match st.1 !! l with
  | Some r =>
      let '(r', thrown) := decorate_all r decs in
      match thrown with
      | Some e => ((<[l := r']> st.1, st.2), Some e)
      | None =>
          match tableRow r' with
          | Thrown e => ((<[l := r']> st.1, st.2), Some e)
          | Done markup =>
              let cells := tableRow_cells r' in
              ((<[l := r']> st.1,
                (st.2 ++ [mkRenderedRow markup cells
                            (bind_clicks cells decs)])%list), None)
          end
      end
  | None => (st, None)
  end.

(** The [data.forEach] of [setData], which stops at the first exception. *)
Fixpoint setData_rows (decs : list Decoration)
  (st : gmap nat Row * list RenderedRow) (data : list nat)
  : (gmap nat Row * list RenderedRow) * option JsError :=
  match data with
  | [] => (st, None)
  | l :: rest =>
      match setData_row decs st l with
      | (st', None) => setData_rows decs st' rest
      | (st', Some e) => (st', Some e)
      end
  end.

(** [setData]: the widget it leaves, and the exception it throws, if it
    throws. *)
Definition setData (data : list nat) (w : Widget) : Widget * option JsError :=
  let '(st, thrown) := setData_rows (decoration w) (rows w, []) data in
  (set_tBody st.2 (set_rows st.1 w), thrown).

(** The class [update] gives to the sort icon of a header. *)
Definition sort_class (h : Header) : string :=
  let c0 := "fa-sort text-muted" in
  let c1 := if (sortState h =? 1)%Z then "fa-sort-up" else c0 in
  if (sortState h =? -1)%Z then "fa-sort-down" else c1.

(** What [update] does after [setData] has returned. *)
Definition update_window (data : PageData) (w2 : Widget) : Widget :=
  let w3 := set_start (d_start data) w2 in
  let w4 := set_end_ (d_start data + Z.of_nat (length (d_rows data))) w3 in
  let w5 := set_total (d_total data) w4 in
  set_shownText
    ("Showing " +:+ string_of_Z (start w5 + 1) +:+ " to " +:+
     string_of_Z (end_ w5) +:+ " of " +:+ string_of_Z (total w5)) w5.

(** The first loop of [update]: the class of the sort icon of every
    sortable header is set from the state of the header. *)
Definition update_icons (w : Widget) : list (option string) :=
  imap (fun idx old =>
          match headers w !! idx with
          | Some h => if isSortable h
                      then (fun _ => "fa " +:+ sort_class h) <$> old
                      else old
          | None => old
          end) (sortIcons w).

(** [update]: the widget it leaves, and the exception [setData] threw, if
    it threw. *)
Definition update (data : PageData) (w : Widget) : Widget * option JsError :=
  let w1 := set_sortIcons (update_icons w) w in
  let '(w2, thrown) := setData (d_rows data) w1 in
  match thrown with
  | Some e => (w2, Some e)
  | None => (update_window data w2, None)
  end.

(** [alert('error!'); console.error(error)], for [catch]. *)
Definition report_error (error : string) (w : Widget) : Widget :=
  set_errorLog (errorLog w ++ [error]) (set_alerts (alerts w ++ ["error!"]) w).

(** The handlers chained in [getNewData], run when the promise settles:
    [then] calls [update], [catch] alerts and logs, also what [update]
    throws, logged here by its name, and [finally] hides the spinner. *)
Definition settle (o : Outcome) (w : Widget) : Widget :=
  match pending w with
  | O => w
  | S n =>
      let w1 := set_pending n w in
      let w2 := match o with
                | Resolved data =>
                    match update data w1 with
                    | (w', None) => w'
                    | (w', Some e) => report_error (error_name e) w'
                    end
                | Rejected error => report_error error w1
                end in
      set_loadingShown false w2
  end.

(** ** Construction and events *)

Definition set_sortState (v : Z) (h : Header) : Header :=
  mkHeader (h_id h) (h_text h) (isSortable h) v.

(** What [makeTableHeader] does to the header object, and the class of the
    sort icon it builds for a sortable header. *)
Definition makeTableHeader (h : Header) : Header := set_sortState 0 h.

Definition makeTableHeader_icon (h : Header) : option string :=
  if isSortable h then Some "fa fa-sort text-muted" else None.

(** [new DynamicTable(elem, options)], with the row arrays the caller holds
    at that time. *)
Definition construct (o : Options) (store : gmap nat Row) : Widget :=
  getNewData
    {| rowsPerPage := default 10%Z (o_rowsPerPage o);
       currentPage := 0;
       currentQuery := Undefined;
       currentSort := InitialSort;
       total := 0;
       start := 0;
       end_ := 0;
       headers := map makeTableHeader (o_headers o);
       decoration := o_decoration o;
       loadingShown := false;
       sortIcons := map makeTableHeader_icon (o_headers o);
       tBody := [];
       shownText := "";
       calls := [];
       pending := 0;
       alerts := [];
       errorLog := [];
       rows := store;
       clicked := [] |}.

(** The click handler of the left page button. *)
Definition leftBtn_click (w : Widget) : Widget :=
  let curP := currentPage w in
  let '(w1, p) := getPrevPage w in
  if negb (p =? curP)%Z then getNewData w1 else w1.

(** The click handler of the right page button. *)
Definition rightBtn_click (w : Widget) : Widget :=
  let curP := currentPage w in
  let '(w1, p) := getNextPage w in
  if negb (p =? curP)%Z then getNewData w1 else w1.

(** The [keyup] handler of the search input holding [val]. *)
Definition search_keyup (val : string) (w : Widget) : Widget :=
  getNewData (set_currentPage 0 (set_currentQuery (Str (trim val)) w)).

(** The two assignments of the sort handler: every header is reset, then
    the clicked one is set from the state it had. *)
Definition reset_sort (hs : list Header) : list Header :=
  map (set_sortState 0) hs.

Definition next_sortState (curState : Z) : Z :=
  if (curState <? 1)%Z then 1%Z else (-1)%Z.

(** The click handler of the sort button of header [i]; only a sortable
    header has the button. *)
Definition sortBtn_click (i : nat) (w : Widget) : Widget :=
  match headers w !! i with
  | Some header =>
      if isSortable header then
        let curState := sortState header in
        let hs := alter (set_sortState (next_sortState curState)) i
                    (reset_sort (headers w)) in
        getNewData (set_currentSort (HeaderRef i) (set_headers hs w))
      else w
  | None => w
  end.

(** A click on the first child element of cell [k] of body row [r]: every
    handler bound to it calls its [clickFunction] with the element's text. *)
Definition cell_click (r k : nat) (w : Widget) : Widget :=
  match tBody w !! r with
  | Some tr =>
      match tr_cells tr !! k ≫= first_child_text with
      | Some txt =>
          set_clicked
            (clicked w ++
             map (fun b => (b.2, txt))
               (filter (fun b => b.1 = k) (tr_handlers tr))) w
      | None => w
      end
  | None => w
  end.

Inductive Event : Type :=
| ClickLeft
| ClickRight
| KeyUp (val : string)
| ClickSort (i : nat)
| ClickCell (r k : nat)
| Settle (o : Outcome)
| CallerStore (l : nat) (r : Row).   (* the caller builds or changes a row array *)

Definition step (w : Widget) (e : Event) : Widget :=
  match e with
  | ClickLeft => leftBtn_click w
  | ClickRight => rightBtn_click w
  | KeyUp val => search_keyup val w
  | ClickSort i => sortBtn_click i w
  | ClickCell r k => cell_click r k w
  | Settle o => settle o w
  | CallerStore l r => set_rows (<[l := r]> (rows w)) w
  end.

Definition run (w : Widget) (es : list Event) : Widget := foldl step w es.

(** ** Page navigation *)

Inductive Nav : Type := Next | Prev.

(** One call of [getNextPage] or [getPrevPage], for its effect. *)
Definition nav (w : Widget) (n : Nav) : Widget :=
  match n with
  | Next => (getNextPage w).1
  | Prev => (getPrevPage w).1
  end.

Definition navigate (w : Widget) (ns : list Nav) : Widget := foldl nav w ns.

(** The index of the last page, [floor((total - 1) / rowsPerPage)]. *)
Definition lastPage (w : Widget) : Z := ((total w - 1) / rowsPerPage w)%Z.

(** The page index is one of an existing page (page 0 when there are no
    rows). *)
Definition page_ok (w : Widget) : Prop :=
  (0 ≤ currentPage w)%Z ∧
  ((0 < total w)%Z → (currentPage w * rowsPerPage w < total w)%Z) ∧
  (total w = 0%Z → currentPage w = 0%Z).

(** ** Sort states *)

(** How a [sortState] is shown, as [update] reads it: 1 is the up arrow,
    -1 the down arrow, anything else the neutral icon. *)
Inductive SortDir : Type := SortNone | Ascending | Descending.

Definition sort_dir (z : Z) : SortDir :=
  if (z =? 1)%Z then Ascending
  else if (z =? -1)%Z then Descending
  else SortNone.

(** The sort state of header [i]. *)
Definition dir_at (w : Widget) (i : nat) : option SortDir :=
  (fun h => sort_dir (sortState h)) <$> headers w !! i.

(** The number of headers whose sort state is not none. *)
Fixpoint active_sorts (hs : list Header) : nat :=
  match hs with
  | [] => 0
  | h :: r => (if (sortState h =? 0)%Z then 0 else 1) + active_sorts r
  end.

(** The values a [sortState] takes. *)
Definition sortState_ok (h : Header) : Prop :=
  sortState h = 0%Z ∨ sortState h = 1%Z ∨ sortState h = (-1)%Z.

(** ** Decoration *)

(** A rule that changes the cell. *)
Definition wraps (dec : Decoration) : Prop :=
  dtype dec = "link" ∨ dtype dec = "button".

(** The markup a rule puts around the text of the cell. *)
Definition wrap (dec : Decoration) (text : string) : string :=
  if String.eqb (dtype dec) "link" then link_open +:+ text +:+ link_close
  else if String.eqb (dtype dec) "button"
       then button_open +:+ text +:+ button_close
       else text.


(** ** Events that leave the query and the sort alone *)

Definition quiet (e : Event) : Prop :=
  match e with
  | KeyUp _ | ClickSort _ => False
  | _ => True
  end.

(** ** Whitespace *)

Fixpoint all_space (s : string) : bool :=
  match s with
  | EmptyString => true
  | String c r => is_space c && all_space r
  end.

Definition starts_with_space (s : string) : bool :=
  match s with
  | EmptyString => false
  | String c _ => is_space c
  end.

Fixpoint ends_with_space (s : string) : bool :=
  match s with
  | EmptyString => false
  | String c EmptyString => is_space c
  | String _ r => ends_with_space r
  end.

(** ** A table of people *)

(** The rows [['Alice','30']] and [['Bob','41']], held by the caller. *)
Definition people_store : gmap nat Row :=
  <[1%nat := mkRow [Some "Bob"; Some "41"] ∅]>
    (<[0%nat := mkRow [Some "Alice"; Some "30"] ∅]> ∅).

Definition people_headers : list Header :=
  [mkHeader "name" "Name" true 0; mkHeader "age" "Age" true 0].

(** The rule [{col: 'name', type: 'link', clickFunction: f}], keyed by the
    id of the first column. *)
Definition people_byId : Options :=
  mkOptions None people_headers
    [mkDecoration (ColName "name") "link" (Some "f")].

(** The rule [{col: 0, type: 'link', clickFunction: f}], keyed by the
    position of the first column. *)
Definition people_byIndex : Options :=
  mkOptions None people_headers
    [mkDecoration (ColIdx 0) "link" (Some "f")].

(** A table of 25 rows shown 10 at a time, on page 0. *)
Definition table25 : Widget :=
  settle (Resolved (mkPageData [] 0 25))
    (construct (mkOptions (Some 10%Z) [] []) ∅).

(** What holds of the headers of a widget in use: each sort state is 0, 1
    or -1, and at most one is not 0. *)
Definition sort_inv (hs : list Header) : Prop :=
  Forall sortState_ok hs ∧ (active_sorts hs ≤ 1)%nat.

(** What a failed fetch must leave alone: the page, the query, the sort
    (the reference and the header objects), the row window, and what is
    rendered (sort icons, body rows, footer text) together with the row
    arrays behind it. *)
Definition view (w : Widget) :=
  (currentPage w, currentQuery w, currentSort w, headers w,
   (total w, start w, end_ w),
   (sortIcons w, tBody w, shownText w), rows w).

(** What holds until the first keystroke or sort: no query, the initial
    sort object, and every fetch made without a query and without a sort
    direction. *)
Definition unset_call (c : FetchCall) : Prop :=
  f_query c = Undefined ∧ f_sortDir c = Undefined.

Definition quiet_inv (w : Widget) : Prop :=
  currentQuery w = Undefined ∧ currentSort w = InitialSort ∧
  Forall unset_call (calls w).

(** How often the row array at [l] is listed in [data]. *)
Fixpoint occurrences (l : nat) (data : list nat) : nat :=
  match data with
  | [] => 0
  | x :: rest => (if Nat.eqb x l then 1 else 0) + occurrences l rest
  end.

(** The rules applied to a row array that is listed [n] times. *)
Fixpoint repeat_rules (n : nat) (decs : list Decoration) : list Decoration :=
  match n with
  | O => []
  | S m => decs ++ repeat_rules m decs
  end.


(** The people table after its first page, holding the row of Alice, has
    arrived; once with the rule keyed by column id, once with the rule
    keyed by position. *)
Definition people_page : PageData := mkPageData [0%nat] 0 1.

Definition shown_byId : Widget :=
  settle (Resolved people_page) (construct people_byId people_store).

Definition shown_byIndex : Widget :=
  settle (Resolved people_page) (construct people_byIndex people_store).

(** Clicks on cells, given by body row and cell. *)
Definition cell_clicks (cs : list (nat * nat)) : list Event :=
  map (fun c => ClickCell c.1 c.2) cs.

(** ** More on the table *)

(** What [setData] appends to the body for a row array that holds [r]
    after decoration. *)
Definition render_row (decs : list Decoration) (r : Row) : RenderedRow :=
  mkRenderedRow (tableRow_markup r) (tableRow_cells r)
    (bind_clicks (tableRow_cells r) decs).

(** The sort icon that agrees with a header: none for a header that is not
    sortable, otherwise the class [update] computes from its state. *)
Definition icon_of (h : Header) : option string :=
  if isSortable h then Some ("fa " +:+ sort_class h) else None.

(** There is a sort button exactly on the sortable headers. *)
Definition icons_aligned (w : Widget) : Prop :=
  (fun o : option string => bool_decide (is_Some o)) <$> sortIcons w
  = isSortable <$> headers w.

(** How [currentSort] and the header objects hang together: with the
    initial object no header is sorted; otherwise [currentSort] is a
    sortable header whose state is 1 or -1. *)
Definition sort_link (w : Widget) : Prop :=
  match currentSort w with
  | InitialSort => active_sorts (headers w) = 0%nat
  | HeaderRef i =>
      ∃ h, headers w !! i = Some h ∧ isSortable h = true ∧
           (sortState h = 1%Z ∨ sortState h = (-1)%Z)
  end.

(** The sort arguments of a fetch: no column and no direction, or the id
    of a column and the direction 1 or -1. *)
Definition sort_args_ok (c : FetchCall) : Prop :=
  (f_sortId c = Null ∧ f_sortDir c = Undefined) ∨
  (∃ id, f_sortId c = Str id ∧
         (f_sortDir c = Num 1 ∨ f_sortDir c = Num (-1))).

(** Text without [<], and text without [>]. *)
Fixpoint no_lt (s : string) : bool :=
  match s with
  | EmptyString => true
  | String c r => negb (Ascii.eqb c "<") && no_lt r
  end.

Fixpoint no_gt (s : string) : bool :=
  match s with
  | EmptyString => true
  | String c r => negb (Ascii.eqb c ">") && no_gt r
  end.

(** The people table with 25 rows in all, its first page shown. *)
Definition table25wide : Widget :=
  settle (Resolved (mkPageData [0; 1]%nat 0 25))
    (construct people_byIndex people_store).

(** * custom.js: the patches to the notebook's cells

    The parts of [kbase-extension/static/custom/custom.js] that compute:
    the kind of a KBase cell, the title of a markdown cell and of a code
    cell, the minimized and maximized states of a cell, the code input
    area, and the name of the notebook.  What a method asks of the host
    notebook ([utils.setCellMeta], the DOM) is either an argument or a
    record of the calls made. *)

(** ** Truthiness *)

Definition truthy (v : jsval) : bool :=
  match v with
  | Undefined | Null => false
  | Num n => negb (n =? 0)%Z
  | Str s => negb (String.eqb s "")
  end.

(** A value that is a string or [undefined]. *)
Definition truthy_str (o : option string) : bool :=
  match o with
  | Some s => negb (String.eqb s "")
  | None => false
  end.

(** ** [cellType] *)

(** A value of the notebook's metadata: what JSON holds, where numbers
    are whole, or [undefined]. *)
#[warnings="-register-all"] Inductive value : Type :=
| VUndefined
| VNull
| VBool (b : bool)
| VNum (z : Z)
| VStr (s : string)
| VArr (items : list value)
| VObj (fields : gmap string value).

Definition truthy_value (v : value) : bool :=
  match v with
  | VUndefined | VNull => false
  | VBool b => b
  | VNum z => negb (z =? 0)%Z
  | VStr s => negb (String.eqb s "")
  | VArr _ | VObj _ => true
  end.

(** [v[k]] for a value [v] that is neither [undefined] nor [null] and a
    key [k] that is no number and names nothing that strings, arrays or
    objects inherit, as ['kb-cell'] and ['type'] are: the property of an
    object, and [undefined] of anything else. *)
Definition get (v : value) (k : string) : value :=
  match v with
  | VObj fields => default VUndefined (fields !! k)
  | _ => VUndefined
  end.

(** [a && b] *)
Definition and_then (a b : value) : value :=
  if truthy_value a then b else a.

(** What [cellType] reads of a cell: [renderCount], [undefined] or a whole
    number, and [metadata]. *)
Record KbCell : Type := mkKbCell {
  renderCount : option Z;
  metadata : value
}.

(** [cell.metadata && cell.metadata['kb-cell'] &&
    cell.metadata['kb-cell']['type']] *)
Definition kb_cell_type (cell : KbCell) : value :=
  and_then (metadata cell)
    (and_then (get (metadata cell) "kb-cell")
       (get (get (metadata cell) "kb-cell") "type")).

Definition cellType (cell : KbCell) : jsval :=
  if match renderCount cell with
     | Some n => (1 <? n)%Z
     | None => false
     end
  then Undefined
  else
    match kb_cell_type cell with
    | VUndefined => Undefined
    | VStr s =>
        if String.eqb s "function_input" then Str "method"
        else if String.eqb s "kb_app" then Str "app"
        else if String.eqb s "function_output" then Str "output"
        else Str "unknown"
    | _ => Str "unknown"
    end.


(** A cell of the notebook with the given KBase type, rendered once. *)
Definition kb_cell (type : string) : KbCell :=
  mkKbCell (Some 1%Z)
    (VObj {["kb-cell" := VObj {["type" := VStr type]}]}).

(** ** Titles *)

Definition pilcrow : ascii := ascii_of_nat 182.
Definition newline : ascii := ascii_of_nat 10.

(** [s.indexOf(c)], [None] for -1. *)
Fixpoint indexOf (c : ascii) (s : string) : option nat :=
  match s with
  | EmptyString => None
  | String x r => if Ascii.eqb x c then Some 0%nat else S <$> indexOf c r
  end.

(** [s.substr(0, n)] *)
Fixpoint substr0 (n : nat) (s : string) : string :=
  match n, s with
  | S m, String x r => String x (substr0 m r)
  | _, _ => EmptyString
  end.

(** The two steps [i = s.indexOf(c); if (i !== -1) s = s.substr(0, i)]. *)
Definition cut_at (c : ascii) (s : string) : string :=
  match indexOf c s with
  | Some i => substr0 i s
  | None => s
  end.

Definition empty_markdown_title : string :=
  "<i>empty markdown cell - add a title with # </i>".

(** The title the [rendered.MarkdownCell] handler stores, from the text of
    the first [h1] or of the rendered content ([None] when there is no
    text). *)
Definition markdown_title (title : option string) : string :=
  if truthy_str title then
    let t0 := default EmptyString title in
    let t1 := if (50 <? String.length t0)%nat
              then substr0 50 t0 +:+ "..." else t0 in
    cut_at newline (cut_at pilcrow t1)
  else empty_markdown_title.

(** The dots at the start of a line, dropped. *)
Fixpoint drop_dots (s : string) : string :=
  match s with
  | EmptyString => EmptyString
  | String c r => if Ascii.eqb c "." then drop_dots r else s
  end.

(** Line terminators, which [.] does not match. *)
Definition is_terminator (c : ascii) : bool :=
  ((nat_of_ascii c =? 10) || (nat_of_ascii c =? 13))%nat.

Fixpoint no_terminator (s : string) : bool :=
  match s with
  | EmptyString => true
  | String c r => negb (is_terminator c) && no_terminator r
  end.

(** [commentRe.exec(line)], by its group 1.  The expression is, from the
    start of the line: dots, as few as possible; [#]; whitespace, as much
    as possible; the group, any characters but line terminators; the end
    of the line. *)
Definition commentRe_exec (line : string) : option string :=
  match drop_dots line with
  | String c r =>
      if Ascii.eqb c "#"
      then let t := ltrim r in if no_terminator t then Some t else None
      else None
  | EmptyString => None
  end.

(** The loop of the [change] handler of a code cell: the title it stores,
    if it stores one. *)
Fixpoint code_title (lines : list string) : option string :=
  match lines with
  | [] => None
  | line :: rest =>
      match commentRe_exec line with
      | Some t => Some t
      | None => code_title rest
      end
  end.

(** ** Cells *)

Inductive CellKind : Type := RawCell | MarkdownCell | CodeCell.

Inductive MetaVal : Type :=
| MBool (b : bool)
| MStr (s : string).

(** One call [utils.setCellMeta(cell, path, value, forceRefresh)]; the
    last field is [false] when the call has three arguments. *)
Record MetaCall : Type := mkMetaCall {
  m_path : string;
  m_value : MetaVal;
  m_refresh : bool
}.

(** A cell: what [$(this.element).data('toggleMinMax')] holds, the class
    lists of the elements found by ['.inner_cell > div:nth-child(2)'] and
    [...(3)], by [this.input.find('.input_area')] and by
    [this.element.find('.output_wrapper')], and the [setCellMeta] calls
    made. *)
Record Cell : Type := mkCell {
  kind : CellKind;
  toggleData : option string;
  div2 : list (gset string);
  div3 : list (gset string);
  input_area : list (gset string);
  output_wrapper : list (gset string);
  metaCalls : list MetaCall
}.

Definition addClass (c : string) (els : list (gset string))
  : list (gset string) :=
  (fun e => {[c]} ∪ e) <$> els.

Definition removeClass (c : string) (els : list (gset string))
  : list (gset string) :=
  (fun e => e ∖ {[c]}) <$> els.

(** [minimize], of [RawCell] and [MarkdownCell] and of [CodeCell]. *)
Definition minimize (c : Cell) : Cell :=
  match kind c with
  | CodeCell =>
      mkCell (kind c) (toggleData c) (div2 c) (div3 c)
        (addClass "hidden" (input_area c))
        (addClass "hidden" (output_wrapper c)) (metaCalls c)
  | _ =>
      mkCell (kind c) (toggleData c)
        (addClass "hidden" (div2 c)) (addClass "hidden" (div3 c))
        (input_area c) (output_wrapper c)
        (metaCalls c ++
         [mkMetaCall "kbase.cellState.showTitle" (MBool true) false])
  end.

(** [maximize] *)
Definition maximize (c : Cell) : Cell :=
  match kind c with
  | CodeCell =>
      mkCell (kind c) (toggleData c) (div2 c) (div3 c)
        (removeClass "hidden" (input_area c))
        (removeClass "hidden" (output_wrapper c)) (metaCalls c)
  | _ =>
      mkCell (kind c) (toggleData c)
        (removeClass "hidden" (div2 c)) (removeClass "hidden" (div3 c))
        (input_area c) (output_wrapper c)
        (metaCalls c ++
         [mkMetaCall "kbase.cellState.showTitle" (MBool false) false])
  end.

Definition set_toggleData (v : option string) (c : Cell) : Cell :=
  mkCell (kind c) v (div2 c) (div3 c) (input_area c) (output_wrapper c)
    (metaCalls c).

(** [renderMinMax], where [metaToggleMode] is what
    [utils.getCellMeta(this, 'kbase.cellState.toggleMinMax')] returns. *)
Definition renderMinMax (metaToggleMode : option string) (c : Cell) : Cell :=
  let toggleMode := toggleData c in
  let '(toggleMode, c1) :=
    if truthy_str metaToggleMode then
      if negb (truthy_str toggleMode)
      then (metaToggleMode, set_toggleData metaToggleMode c)
      else (toggleMode, c)
    else if negb (truthy_str toggleMode)
      then (Some "maximized", set_toggleData (Some "maximized") c)
      else (toggleMode, c) in
  match toggleMode with
  | Some m =>
      if String.eqb m "maximized" then maximize c1
      else if String.eqb m "minimized" then minimize c1
      else c1
  | None => c1
  end.

(** [$cellNode.data('toggleMinMax') || 'maximized'] *)
Definition current_mode (c : Cell) : string :=
  if truthy_str (toggleData c)
  then default EmptyString (toggleData c)
  else "maximized".

(** [toggleMinMax] *)
Definition toggleMinMax (metaToggleMode : option string) (c : Cell) : Cell :=
  let toggleMode := current_mode c in
  let toggleMode := if String.eqb toggleMode "maximized" then "minimized"
                    else if String.eqb toggleMode "minimized" then "maximized"
                    else toggleMode in
  let c1 := set_toggleData (Some toggleMode) c in
  let c2 := renderMinMax metaToggleMode c1 in
  mkCell (kind c2) (toggleData c2) (div2 c2) (div3 c2) (input_area c2)
    (output_wrapper c2)
    (metaCalls c2 ++
     [mkMetaCall "kbase.cellState.toggleMinMax" (MStr toggleMode) true]).

(** The elements [minimize] and [maximize] act on. *)
Definition minmax_parts (c : Cell) : list (gset string) :=
  match kind c with
  | CodeCell => input_area c ++ output_wrapper c
  | _ => div2 c ++ div3 c
  end.

Definition set_input_area (v : list (gset string)) (c : Cell) : Cell :=
  mkCell (kind c) (toggleData c) (div2 c) (div3 c) v (output_wrapper c)
    (metaCalls c).

(** [hideCodeInputArea], [isCodeShowing] and [toggleCodeInputArea], which
    act on the first input area.  The assignment
    [this.metadata = this.metadata] of [toggleCodeInputArea], which stores
    nothing new and only notifies the host notebook, is left out. *)
Definition hideCodeInputArea (c : Cell) : Cell :=
  match input_area c with
  | codeInputArea :: rest =>
      set_input_area (({["hidden"]} ∪ codeInputArea) :: rest) c
  | [] => c
  end.

Definition isCodeShowing (c : Cell) : bool :=
  match input_area c with
  | codeInputArea :: _ => negb (bool_decide ("hidden" ∈ codeInputArea))
  | [] => false
  end.

Definition toggleCodeInputArea (c : Cell) : Cell :=
  match input_area c with
  | codeInputArea :: rest =>
      set_input_area
        ((if bool_decide ("hidden" ∈ codeInputArea)
          then codeInputArea ∖ {["hidden"]}
          else {["hidden"]} ∪ codeInputArea) :: rest) c
  | [] => c
  end.

(** ** The notebook's name *)

Record Notebook : Type := mkNotebook {
  metadata_name : jsval;
  notebook_name : jsval
}.

(** [get_notebook_name] *)
Definition get_notebook_name (nb : Notebook) : Notebook * jsval :=
  let nb1 := if negb (truthy (metadata_name nb))
             then mkNotebook (notebook_name nb) (notebook_name nb)
             else nb in
  (nb1, metadata_name nb1).

(** ** Rules that keep within the model *)

(** The characters of a word: letters, digits, [_], [$] and [-]; a word
    starts with a letter, [_] or [$]. *)
Definition name_start (c : ascii) : bool :=
  let n := nat_of_ascii c in
  (((65 <=? n) && (n <=? 90)) || ((97 <=? n) && (n <=? 122))
   || (n =? 95) || (n =? 36))%nat.

Definition name_char (c : ascii) : bool :=
  name_start c || is_digit c || (nat_of_ascii c =? 45)%nat.

Fixpoint all_name_chars (s : string) : bool :=
  match s with
  | EmptyString => true
  | String c r => name_char c && all_name_chars r
  end.

(** A [col] that is a position (a whole number below 2^32 - 1), the
    decimal form of one, or a word that names nothing an array inherits,
    such as a column id.  With such a [col] the selector built from it is
    well formed and, for a word, names no position; [setData] throws only
    where [decorate] and [tableRow] say so; and what [row[col]] reads does
    not depend on how an engine prints its built-in functions. *)
Definition key_word (k : ColKey) : bool :=
  match k with
  | ColIdx i => (N.of_nat i <? 4294967295)%N
  | ColName s =>
      match index_of_name s with
      | Some _ => true
      | None =>
          match s with
          | EmptyString => false
          | String c r =>
              name_start c && all_name_chars r &&
              match array_inherited s with
              | Some _ => false
              | None => true
              end
          end
      end
  end.

Definition rules_are_words (decs : list Decoration) : Prop :=
  Forall (fun dec => key_word (col dec) = true) decs.

(** The array after one rule, whether the rule threw or not. *)
Definition decorate_step (r : Row) (dec : Decoration) : Row :=
  match decorate r dec with
  | Done r' => r'
  | Thrown _ => r
  end.

(** A rule that throws: one of type link or button for the length. *)
Definition rule_throws (dec : Decoration) : bool :=
  (String.eqb (dtype dec) "link" || String.eqb (dtype dec) "button")
  && bool_decide (prop_key (col dec) = PLength).

(** An array [tableRow] accepts. *)
Definition row_renders (r : Row) : Prop :=
  props r !! "map" = None ∧ props r !! "constructor" = None.


(** ** Cells of plain text *)

(** Text that reaches the page as written: it holds no [<], which would
    start a tag, no [&], which would start a character reference, and
    neither the character 0, which the HTML parser drops, nor a carriage
    return, which it turns into a line feed. *)
Definition plain_char (c : ascii) : bool :=
  let n := nat_of_ascii c in
  (negb (n =? 0) && negb (n =? 13) && negb (n =? 38) && negb (n =? 60))%nat.

Fixpoint plain_text (s : string) : bool :=
  match s with
  | EmptyString => true
  | String c r => plain_char c && plain_text r
  end.

Definition plain_cells (cells : list string) : Prop :=
  Forall (fun c => plain_text c = true) cells.

(** * Properties *)

(** ** The model on small inputs *)

Example string_of_Z_examples :
  string_of_Z 0 = "0" ∧ string_of_Z 100 = "100" ∧ string_of_Z (-12) = "-12".
Proof. repeat split. Qed.

Example trim_example :
  trim (String (ascii_of_nat 9) "  foo bar  ") = "foo bar" ∧ trim "   " = "".
Proof. split; reflexivity. Qed.

(** Writing past the end of ['Alice','30'] leaves holes, which [join]
    renders as empty strings and which give no [<td>]. *)
Example row_set_past_end :
  ∃ r, row_set (mkRow [Some "Alice"; Some "30"] ∅) (ColIdx 4) "z" = Done r ∧
       elems r = [Some "Alice"; Some "30"; None; None; Some "z"] ∧
       tableRow_markup r = "<td>Alice</td>,<td>30</td>,,,<td>z</td>" ∧
       tableRow_cells r = ["Alice"; "30"; "z"].
Proof.
  eexists. split; [vm_compute; reflexivity |].
  split; [| split]; vm_compute; reflexivity.
Qed.

(** The keys of an array: a number in decimal is an index, also as a
    string; [length] and [__proto__] are their own kinds; other strings are
    names, among them numbers in another spelling. *)
Example prop_key_examples :
  prop_key (ColName "0") = PIndex 0 ∧ prop_key (ColName "12") = PIndex 12 ∧
  prop_key (ColName "01") = PNamed "01" ∧
  prop_key (ColName "4294967295") = PNamed "4294967295" ∧
  prop_key (ColName "length") = PLength ∧
  prop_key (ColName "name") = PNamed "name" ∧
  array_inherited "name" = None ∧
  array_inherited "map" = Some "function map() { [native code] }".
Proof. repeat split; vm_compute; reflexivity. Qed.

Example first_child_text_examples :
  first_child_text "Alice" = None ∧
  first_child_text "n: <b>x<i>y</i>z</b> w" = Some "xyz".
Proof. split; reflexivity. Qed.

(** ** What [setData] and [update] write to *)

Section UpdateFrame.

Lemma setData_state (data : list nat) (w : Widget) :
  (setData data w).1 =
  set_tBody (tBody (setData data w).1) (set_rows (rows (setData data w).1) w).
Proof.
  unfold setData. destruct (setData_rows _ _ data) as [st thrown].
  reflexivity.
Qed.

(** [update] returns after [setData] has, and throws what it throws. *)
Lemma update_state (data : PageData) (w : Widget) :
  (update data w).2 =
    (setData (d_rows data) (set_sortIcons (update_icons w) w)).2 ∧
  (update data w).1 =
    match (setData (d_rows data) (set_sortIcons (update_icons w) w)).2 with
    | None =>
        update_window data
          (setData (d_rows data) (set_sortIcons (update_icons w) w)).1
    | Some _ => (setData (d_rows data) (set_sortIcons (update_icons w) w)).1
    end.
Proof.
  unfold update. cbv zeta.
  destruct (setData (d_rows data) (set_sortIcons (update_icons w) w))
    as [w2 [e |]]; split; reflexivity.
Qed.

(** Of the widget, [update] writes to the sort icons, the body, the row
    arrays, the window and the footer, and to nothing else. *)
Lemma update_fields (data : PageData) (w : Widget) :
  rowsPerPage (update data w).1 = rowsPerPage w ∧
  currentPage (update data w).1 = currentPage w ∧
  currentQuery (update data w).1 = currentQuery w ∧
  currentSort (update data w).1 = currentSort w ∧
  headers (update data w).1 = headers w ∧
  decoration (update data w).1 = decoration w ∧
  loadingShown (update data w).1 = loadingShown w ∧
  calls (update data w).1 = calls w ∧
  pending (update data w).1 = pending w ∧
  alerts (update data w).1 = alerts w ∧
  errorLog (update data w).1 = errorLog w ∧
  clicked (update data w).1 = clicked w.
Proof.
  destruct (update_state data w) as [_ ->].
  destruct (setData (d_rows data) (set_sortIcons (update_icons w) w)).2;
    cbn; rewrite setData_state; repeat split; reflexivity.
Qed.

Lemma sortIcons_update_icons (data : PageData) (w : Widget) :
  sortIcons (update data w).1 = update_icons w.
Proof.
  destruct (update_state data w) as [_ ->].
  destruct (setData (d_rows data) (set_sortIcons (update_icons w) w)).2;
    cbn; rewrite setData_state; reflexivity.
Qed.

(** What a settled promise leaves alone. *)
Lemma settle_core (o : Outcome) (w : Widget) :
  rowsPerPage (settle o w) = rowsPerPage w ∧
  currentPage (settle o w) = currentPage w ∧
  currentQuery (settle o w) = currentQuery w ∧
  currentSort (settle o w) = currentSort w ∧
  headers (settle o w) = headers w ∧
  decoration (settle o w) = decoration w ∧
  calls (settle o w) = calls w ∧
  clicked (settle o w) = clicked w.
Proof.
  unfold settle. destruct (pending w) as [| n]; [repeat split |].
  destruct o as [data | error]; [| repeat split].
  destruct (update_fields data (set_pending n w))
    as (H1 & H2 & H3 & H4 & H5 & H6 & _ & H7 & _ & _ & _ & H8).
  rewrite (surjective_pairing (update data (set_pending n w))).
  destruct (update data (set_pending n w)).2; cbn;
    rewrite H1, H2, H3, H4, H5, H6, H7, H8; repeat split; reflexivity.
Qed.

Lemma setData_set_pending (n : nat) (data : list nat) (w : Widget) :
  setData data (set_pending n w) =
  (set_pending n (setData data w).1, (setData data w).2).
Proof.
  unfold setData. cbn [decoration rows set_pending].
  destruct (setData_rows (decoration w) (rows w, []) data) as [st thrown].
  reflexivity.
Qed.

Lemma update_set_pending (n : nat) (data : PageData) (w : Widget) :
  update data (set_pending n w) =
  (set_pending n (update data w).1, (update data w).2).
Proof.
  unfold update. cbv zeta.
  change (set_sortIcons (update_icons (set_pending n w)) (set_pending n w))
    with (set_pending n (set_sortIcons (update_icons w) w)).
  rewrite setData_set_pending.
  destruct (setData (d_rows data) (set_sortIcons (update_icons w) w))
    as [w2 [e |]]; reflexivity.
Qed.

(** A promise that settles while none is pending is none of the
    widget's. *)
Lemma settle_idle (o : Outcome) (w : Widget) :
  pending w = 0%nat → settle o w = w.
Proof. unfold settle. intros ->. reflexivity. Qed.

(** A promise that settles takes one from the pending fetches and hides
    the spinner, whether [update] threw or not. *)
Lemma settle_pending (o : Outcome) (w : Widget) (n : nat) :
  pending w = S n →
  pending (settle o w) = n ∧ loadingShown (settle o w) = false.
Proof.
  unfold settle. intros ->. destruct o as [data | error];
    [| split; reflexivity].
  rewrite update_set_pending. cbn [fst snd].
  destruct (update data w).2; split; reflexivity.
Qed.

Lemma sortIcons_settle_resolved (data : PageData) (w : Widget) (n : nat) :
  pending w = S n → sortIcons (settle (Resolved data) w) = update_icons w.
Proof.
  unfold settle. intros ->. rewrite update_set_pending. cbn [fst snd].
  destruct (update data w).2;
    cbn; apply (sortIcons_update_icons data w).
Qed.

Lemma sortIcons_settle_rejected (error : string) (w : Widget) :
  sortIcons (settle (Rejected error) w) = sortIcons w.
Proof. unfold settle. destruct (pending w); reflexivity. Qed.

End UpdateFrame.

(** ** Page navigation *)

Section Navigation.

Local Open Scope Z_scope.

Lemma getPrevPage_spec (w : Widget) :
  getPrevPage w =
  (set_currentPage (Z.max 0 (currentPage w - 1)) w,
   Z.max 0 (currentPage w - 1)).
Proof.
  unfold getPrevPage; cbn.
  destruct (Z.ltb_spec (currentPage w - 1) 0) as [Hlt | Hge]; cbn.
  - rewrite Z.max_l by lia. reflexivity.
  - rewrite Z.max_r by lia. reflexivity.
Qed.

Lemma getNextPage_spec (w : Widget) :
  getNextPage w =
  let p := if (currentPage w + 1) * rowsPerPage w <? total w
           then currentPage w + 1 else currentPage w in
  (set_currentPage p w, p).
Proof.
  unfold getNextPage; cbn.
  rewrite Z.geb_leb.
  destruct (Z.leb_spec (total w) ((currentPage w + 1) * rowsPerPage w));
    destruct (Z.ltb_spec ((currentPage w + 1) * rowsPerPage w) (total w));
    try lia; cbn; [| reflexivity].
  replace (currentPage w + 1 - 1) with (currentPage w) by lia.
  reflexivity.
Qed.

(** Neither method touches [total] or [rowsPerPage]. *)
Lemma nav_frame (w : Widget) (n : Nav) :
  total (nav w n) = total w ∧ rowsPerPage (nav w n) = rowsPerPage w.
Proof.
  destruct n; unfold nav;
    [rewrite getNextPage_spec | rewrite getPrevPage_spec]; cbn; auto.
Qed.

Lemma navigate_frame (w : Widget) (ns : list Nav) :
  total (navigate w ns) = total w ∧
  rowsPerPage (navigate w ns) = rowsPerPage w.
Proof.
  revert w; induction ns as [| n ns IH]; intros w; cbn; [auto |].
  destruct (IH (nav w n)) as [Ht Hr], (nav_frame w n) as [Ht' Hr'].
  unfold navigate in *. split; congruence.
Qed.

Lemma page_ok_nav (w : Widget) (n : Nav) :
  0 < rowsPerPage w → 0 ≤ total w → page_ok w → page_ok (nav w n).
Proof.
  intros Hr Ht (H0 & Hlt & Hz).
  destruct n; unfold nav, page_ok.
  - rewrite getNextPage_spec; cbn.
    destruct (Z.ltb_spec ((currentPage w + 1) * rowsPerPage w) (total w));
      cbn; (split; [lia | split; [intros Htot | intros Htot]]);
      auto; try lia; nia.
  - rewrite getPrevPage_spec; cbn.
    split; [lia | split; intros Htot; [specialize (Hlt Htot); nia | lia]].
Qed.

Lemma page_ok_navigate (ns : list Nav) (w : Widget) :
  0 < rowsPerPage w → 0 ≤ total w → page_ok w → page_ok (navigate w ns).
Proof.
  revert w; induction ns as [| n ns IH]; intros w Hr Ht Hok; [exact Hok |].
  destruct (nav_frame w n) as [Ht' Hr'].
  apply (IH (nav w n)); [lia | lia | apply page_ok_nav; assumption].
Qed.

(** [c * r < t] says the same as [c ≤ floor((t - 1) / r)]. *)
Lemma below_total_iff (c r t : Z) :
  0 < r → (c * r < t ↔ c ≤ (t - 1) / r).
Proof.
  intros Hr. split; intros H.
  - apply Z.div_le_lower_bound; lia.
  - pose proof (Z.mul_div_le (t - 1) r Hr). nia.
Qed.

End Navigation.

Lemma set_currentPage_same (w : Widget) : set_currentPage (currentPage w) w = w.
Proof. destruct w; reflexivity. Qed.

(** C1.  Starting from page 0, with [rowsPerPage] positive, any sequence
    of [getNextPage] and [getPrevPage] calls leaves [total] and
    [rowsPerPage] as they are and keeps [currentPage] between 0 and
    [floor((total - 1) / rowsPerPage)] when [total > 0], so that
    [currentPage * rowsPerPage < total]; when [total] is 0 it keeps
    [currentPage] at 0. *)
Theorem currentPage_stays_in_range (w : Widget) (ns : list Nav) :
  (0 < rowsPerPage w)%Z →
  currentPage w = 0%Z →
  let w' := navigate w ns in
  total w' = total w ∧ rowsPerPage w' = rowsPerPage w ∧
  ((0 < total w)%Z →
   (0 ≤ currentPage w' ≤ (total w - 1) / rowsPerPage w)%Z ∧
   (currentPage w' * rowsPerPage w < total w)%Z) ∧
  (total w = 0%Z → currentPage w' = 0%Z).
Proof.
  intros Hr H0 w'.
  destruct (navigate_frame w ns) as [Ht' Hr'].
  split; [exact Ht' |]. split; [exact Hr' |].
  split.
  - intros Ht.
    assert (Hok : page_ok w') by
      (apply page_ok_navigate; [lia | lia | unfold page_ok; lia]).
    destruct Hok as (Hge & Hlt & _).
    subst w'. rewrite Ht', Hr' in Hlt. specialize (Hlt Ht).
    split; [split; [exact Hge |] | exact Hlt].
    apply below_total_iff; assumption.
  - intros Ht.
    assert (Hok : page_ok w') by
      (apply page_ok_navigate; [lia | lia | unfold page_ok; lia]).
    destruct Hok as (_ & _ & Hz). apply Hz. subst w'. lia.
Qed.

Lemma currentPage_stays_in_range_witness :
  (0 ≤ currentPage (navigate table25 [Next; Next; Next; Prev; Next; Next])
     ≤ (25 - 1) / 10)%Z ∧
  (currentPage (navigate table25 [Next; Next; Next; Prev; Next; Next]) * 10
   < 25)%Z.
Proof.
  refine (proj1 (proj2 (proj2
    (currentPage_stays_in_range table25
       [Next; Next; Next; Prev; Next; Next] _ _))) _);
    vm_compute; reflexivity.
Defined.

(** C2.  [getPrevPage] lowers [currentPage] by one but not below 0, and
    [getNextPage] raises it by one but not past the last page; each
    returns the index it leaves in [currentPage].  At page 0 [getPrevPage]
    returns 0; with 25 rows, 10 per page, on page 2, [getNextPage] returns
    2.  When the returned index is the one before the call, the handler of
    the page button leaves the widget as it was, so no fetch is made; when
    it differs, the handler makes one fetch, for the new page. *)
Theorem page_buttons_clamp (w : Widget) :
  getPrevPage w =
    (set_currentPage (Z.max 0 (currentPage w - 1)) w,
     Z.max 0 (currentPage w - 1)) ∧
  getNextPage w =
    (let p := if ((currentPage w + 1) * rowsPerPage w <? total w)%Z
              then (currentPage w + 1)%Z else currentPage w in
     (set_currentPage p w, p)) ∧
  ((0 < rowsPerPage w)%Z → (0 < total w)%Z →
   (0 ≤ currentPage w ≤ lastPage w)%Z →
   (getNextPage w).2 = Z.min (currentPage w + 1) (lastPage w)) ∧
  (currentPage w = 0%Z → (getPrevPage w).2 = 0%Z) ∧
  (total w = 25%Z → rowsPerPage w = 10%Z → currentPage w = 2%Z →
   (getNextPage w).2 = 2%Z) ∧
  ((getPrevPage w).2 = currentPage w →
   leftBtn_click w = w ∧ calls (leftBtn_click w) = calls w) ∧
  ((getNextPage w).2 = currentPage w →
   rightBtn_click w = w ∧ calls (rightBtn_click w) = calls w) ∧
  ((getPrevPage w).2 ≠ currentPage w →
   leftBtn_click w = getNewData (getPrevPage w).1) ∧
  ((getNextPage w).2 ≠ currentPage w →
   rightBtn_click w = getNewData (getNextPage w).1).
Proof.
  split; [apply getPrevPage_spec |].
  split; [apply getNextPage_spec |].
  split.
  { intros Hr Ht Hc. rewrite getNextPage_spec; cbn. unfold lastPage in *.
    destruct (Z.ltb_spec ((currentPage w + 1) * rowsPerPage w) (total w))
      as [Hlt | Hge].
    - apply below_total_iff in Hlt; [lia | assumption].
    - assert (Hn : ¬ (currentPage w + 1 ≤ (total w - 1) / rowsPerPage w)%Z)
        by (intros Hle; apply below_total_iff in Hle; [lia | assumption]).
      lia. }
  split.
  { intros H0. rewrite getPrevPage_spec; cbn. lia. }
  split.
  { intros Ht Hr Hc. rewrite getNextPage_spec; cbn. rewrite Ht, Hr, Hc.
    reflexivity. }
  unfold leftBtn_click, rightBtn_click.
  rewrite getPrevPage_spec, getNextPage_spec; cbn.
  split; [intros H; rewrite H, Z.eqb_refl; cbn; split;
          [apply set_currentPage_same | reflexivity] |].
  split; [intros H; rewrite H, Z.eqb_refl; cbn; split;
          [apply set_currentPage_same | reflexivity] |].
  split; intros H; apply Z.eqb_neq in H; rewrite H; reflexivity.
Qed.

Lemma page_buttons_clamp_witness :
  (getNextPage (navigate table25 [Next; Next])).2 = 2%Z ∧
  leftBtn_click table25 = table25.
Proof.
  split.
  - refine (proj1 (proj2 (proj2 (proj2 (proj2
      (page_buttons_clamp (navigate table25 [Next; Next])))))) _ _ _);
      vm_compute; reflexivity.
  - refine (proj1 (proj1 (proj2 (proj2 (proj2 (proj2 (proj2
      (page_buttons_clamp table25)))))) _));
      vm_compute; reflexivity.
Defined.

(** ** Sorting *)

Section Sorting.

Local Open Scope Z_scope.

Lemma headers_settle (o : Outcome) (w : Widget) :
  headers (settle o w) = headers w.
Proof. apply settle_core. Qed.

(** Only the sort buttons write to the header objects. *)
Lemma headers_step (w : Widget) (e : Event) :
  (∀ i, e ≠ ClickSort i) → headers (step w e) = headers w.
Proof.
  intros Hne. destruct e as [| | val | i | r k | o | l r]; unfold step.
  - unfold leftBtn_click. rewrite getPrevPage_spec.
    destruct (negb _); reflexivity.
  - unfold rightBtn_click. rewrite getNextPage_spec; cbv beta iota zeta.
    destruct (negb _); reflexivity.
  - reflexivity.
  - destruct (Hne i eq_refl).
  - unfold cell_click. destruct (tBody w !! r) as [tr |]; [| reflexivity].
    destruct (tr_cells tr !! k ≫= first_child_text); reflexivity.
  - apply headers_settle.
  - reflexivity.
Qed.

Lemma headers_sortBtn_click (w : Widget) (i : nat) (h : Header) :
  headers w !! i = Some h → isSortable h = true →
  headers (sortBtn_click i w) =
  alter (set_sortState (next_sortState (sortState h))) i
    (reset_sort (headers w)).
Proof.
  intros Hi Hs. unfold sortBtn_click. rewrite Hi, Hs. reflexivity.
Qed.

Lemma reset_sort_lookup (hs : list Header) (i : nat) :
  reset_sort hs !! i = set_sortState 0 <$> hs !! i.
Proof. unfold reset_sort. apply list_lookup_fmap. Qed.


Lemma active_sorts_reset (hs : list Header) : active_sorts (reset_sort hs) = 0%nat.
Proof. induction hs as [| h hs IH]; cbn; auto. Qed.

Lemma active_sorts_alter_reset (f : Header → Header) (i : nat) (hs : list Header) :
  (active_sorts (alter f i (reset_sort hs)) ≤ 1)%nat.
Proof.
  revert i; induction hs as [| h hs IH]; intros [| i]; cbn; try lia.
  - fold (reset_sort hs). rewrite active_sorts_reset.
    destruct (sortState (f (set_sortState 0 h)) =? 0); cbn; lia.
  - apply IH.
Qed.

(** The header clicked gets the next state, every other header none. *)
Lemma sortBtn_click_same (w : Widget) (i : nat) (h : Header) :
  headers w !! i = Some h → isSortable h = true →
  headers (sortBtn_click i w) !! i =
  Some (set_sortState (next_sortState (sortState h)) h).
Proof.
  intros Hi Hs. rewrite (headers_sortBtn_click w i h Hi Hs).
  rewrite list_lookup_alter_eq, reset_sort_lookup, Hi. reflexivity.
Qed.

Lemma sortBtn_click_other (w : Widget) (i j : nat) (h hj : Header) :
  j ≠ i → headers w !! i = Some h →
  headers w !! j = Some hj → isSortable hj = true →
  headers (sortBtn_click j w) !! i = Some (set_sortState 0 h).
Proof.
  intros Hne Hi Hj Hs. rewrite (headers_sortBtn_click w j hj Hj Hs).
  rewrite list_lookup_alter_ne by congruence.
  rewrite reset_sort_lookup, Hi. reflexivity.
Qed.

Lemma sort_inv_construct (o : Options) (s : gmap nat Row) :
  sort_inv (headers (construct o s)).
Proof.
  cbn. split.
  - induction (o_headers o); constructor; [left; reflexivity | assumption].
  - fold (reset_sort (o_headers o)). change (map makeTableHeader) with reset_sort.
    rewrite active_sorts_reset. lia.
Qed.

Lemma sort_inv_step (w : Widget) (e : Event) :
  sort_inv (headers w) → sort_inv (headers (step w e)).
Proof.
  intros Hinv. destruct e as [| | val | i | r k | o | l r];
    try (rewrite headers_step by discriminate; exact Hinv).
  cbn. destruct (headers w !! i) as [h |] eqn:Hi;
    [| unfold sortBtn_click; rewrite Hi; exact Hinv].
  destruct (isSortable h) eqn:Hs;
    [| unfold sortBtn_click; rewrite Hi, Hs; exact Hinv].
  rewrite (headers_sortBtn_click w i h Hi Hs). split.
  - apply Forall_lookup. intros k x Hk.
    destruct (decide (k = i)) as [-> | Hne].
    + rewrite list_lookup_alter_eq, reset_sort_lookup, Hi in Hk.
      injection Hk as <-. unfold sortState_ok, next_sortState; cbn.
      destruct (sortState h <? 1); auto.
    + rewrite list_lookup_alter_ne, reset_sort_lookup in Hk by congruence.
      destruct (headers w !! k); [| discriminate].
      injection Hk as <-. left; reflexivity.
  - apply active_sorts_alter_reset.
Qed.

Lemma sort_inv_run (es : list Event) (w : Widget) :
  sort_inv (headers w) → sort_inv (headers (run w es)).
Proof.
  revert w; induction es as [| e es IH]; intros w Hinv; [exact Hinv |].
  apply (IH (step w e)), sort_inv_step, Hinv.
Qed.

End Sorting.

Lemma dir_at_lookup (w : Widget) (i : nat) (h : Header) :
  headers w !! i = Some h → dir_at w i = Some (sort_dir (sortState h)).
Proof. intros Hi. unfold dir_at. rewrite Hi. reflexivity. Qed.

(** One press of the sort button, seen through [dir_at]. *)
Lemma dir_at_sortBtn_click (w : Widget) (i : nat) (h : Header) :
  headers w !! i = Some h → isSortable h = true →
  sortState_ok h →
  dir_at (sortBtn_click i w) i =
  Some (match sort_dir (sortState h) with
        | Ascending => Descending
        | _ => Ascending
        end) ∧
  ∃ h', headers (sortBtn_click i w) !! i = Some h' ∧
        isSortable h' = true ∧ sortState_ok h'.
Proof.
  intros Hi Hs Hok. pose proof (sortBtn_click_same w i h Hi Hs) as Hc.
  split.
  - rewrite (dir_at_lookup _ _ _ Hc). cbn.
    destruct Hok as [-> | [-> | ->]]; reflexivity.
  - eexists; split; [exact Hc |]. split; [exact Hs |].
    destruct Hok as [H | [H | H]]; unfold sortState_ok; cbn; rewrite H; cbn;
      auto.
Qed.

(** C3.  In a widget in use, pressing the sort button of a sortable column
    whose state is none or descending makes it ascending, and pressing it
    when ascending makes it descending; so from none, three presses give
    ascending, descending, ascending.  Pressing the sort button of another
    column puts this one back to none. *)
Theorem sort_toggle_cycle (o : Options) (s : gmap nat Row) (es : list Event)
  (i : nat) (h : Header) :
  let w := run (construct o s) es in
  headers w !! i = Some h → isSortable h = true →
  ((dir_at w i = Some SortNone ∨ dir_at w i = Some Descending) →
   dir_at (sortBtn_click i w) i = Some Ascending) ∧
  (dir_at w i = Some Ascending →
   dir_at (sortBtn_click i w) i = Some Descending) ∧
  (dir_at w i = Some SortNone →
   dir_at (sortBtn_click i w) i = Some Ascending ∧
   dir_at (sortBtn_click i (sortBtn_click i w)) i = Some Descending ∧
   dir_at (sortBtn_click i (sortBtn_click i (sortBtn_click i w))) i
   = Some Ascending) ∧
  (∀ j hj, j ≠ i → headers w !! j = Some hj → isSortable hj = true →
           dir_at (sortBtn_click j w) i = Some SortNone).
Proof.
  intros w Hi Hs.
  assert (Hok : sortState_ok h).
  { pose proof (sort_inv_run es _ (sort_inv_construct o s)) as [Hall _].
    rewrite Forall_lookup in Hall. exact (Hall i h Hi). }
  destruct (dir_at_sortBtn_click w i h Hi Hs Hok) as [H1 (h1 & Hi1 & Hs1 & Hok1)].
  destruct (dir_at_sortBtn_click _ i h1 Hi1 Hs1 Hok1)
    as [H2 (h2 & Hi2 & Hs2 & Hok2)].
  destruct (dir_at_sortBtn_click _ i h2 Hi2 Hs2 Hok2) as [H3 _].
  pose proof (dir_at_lookup _ _ _ Hi1) as E1.
  rewrite H1 in E1; injection E1 as E1.
  pose proof (dir_at_lookup _ _ _ Hi2) as E2.
  rewrite H2 in E2; injection E2 as E2.
  rewrite <- E2 in H3. rewrite <- E1 in H2, H3.
  rewrite (dir_at_lookup _ _ _ Hi), H1, H2, H3.
  split; [| split; [| split]].
  - intros [Hd | Hd]; injection Hd as ->; reflexivity.
  - intros Hd; injection Hd as ->; reflexivity.
  - intros Hd; injection Hd as ->. repeat split; reflexivity.
  - intros j hj Hne Hj Hsj.
    rewrite (dir_at_lookup _ _ _ (sortBtn_click_other w i j h hj Hne Hi Hj Hsj)).
    reflexivity.
Qed.

Lemma sort_toggle_cycle_witness :
  dir_at (sortBtn_click 0 (construct people_byIndex people_store)) 0
  = Some Ascending ∧
  dir_at (sortBtn_click 0 (sortBtn_click 0
            (construct people_byIndex people_store))) 0
  = Some Descending ∧
  dir_at (sortBtn_click 0 (sortBtn_click 0 (sortBtn_click 0
            (construct people_byIndex people_store)))) 0
  = Some Ascending.
Proof.
  refine (proj1 (proj2 (proj2
    (sort_toggle_cycle people_byIndex people_store [] 0
       (mkHeader "name" "Name" true 0) _ _))) _);
    vm_compute; reflexivity.
Defined.

Lemma active_sorts_lookup (hs : list Header) (i : nat) (h : Header) :
  hs !! i = Some h → sortState h ≠ 0%Z → (1 ≤ active_sorts hs)%nat.
Proof.
  revert i; induction hs as [| x hs IH]; intros [| i] Hi Hnz;
    try discriminate; cbn in *.
  - injection Hi as ->. apply Z.eqb_neq in Hnz. rewrite Hnz. lia.
  - specialize (IH i Hi Hnz). lia.
Qed.




(** ** Fetching *)

Lemma settle_rejected (w : Widget) (error : string) :
  pending w ≠ 0%nat →
  view (settle (Rejected error) w) = view w ∧
  alerts (settle (Rejected error) w) = (alerts w ++ ["error!"])%list ∧
  errorLog (settle (Rejected error) w) = (errorLog w ++ [error])%list ∧
  calls (settle (Rejected error) w) = calls w.
Proof.
  intros Hp. unfold settle. destruct (pending w); [congruence |].
  repeat split; reflexivity.
Qed.

Lemma settle_hides (w : Widget) (o : Outcome) :
  pending w ≠ 0%nat → loadingShown (settle o w) = false.
Proof.
  intros Hp. unfold settle. destruct (pending w); [congruence |].
  destruct o; reflexivity.
Qed.

(** C5.  [getNewData] shows the spinner and leaves a promise pending.  When
    a pending promise is rejected, one alert is raised and the error is
    logged, and the page, the query, the sort state, the rendered rows and
    the row arrays are what they were; no further fetch is made.  In
    particular a fetch that fails at once leaves them as they were before
    [getNewData].  However a pending promise settles, the spinner is hidden
    afterwards. *)
Theorem failed_fetch_keeps_state (w0 : Widget) (error : string) :
  loadingShown (getNewData w0) = true ∧
  pending (getNewData w0) = S (pending w0) ∧
  view (settle (Rejected error) (getNewData w0)) = view w0 ∧
  (∀ w, pending w ≠ 0%nat →
        view (settle (Rejected error) w) = view w ∧
        alerts (settle (Rejected error) w) = (alerts w ++ ["error!"])%list ∧
        errorLog (settle (Rejected error) w) = (errorLog w ++ [error])%list ∧
        calls (settle (Rejected error) w) = calls w) ∧
  (∀ w o, pending w ≠ 0%nat → loadingShown (settle o w) = false).
Proof.
  split; [reflexivity |]. split; [reflexivity |]. split; [reflexivity |].
  split; [intros w; apply settle_rejected | intros w o; apply settle_hides].
Qed.

Lemma failed_fetch_keeps_state_witness :
  view (settle (Rejected "timeout") (rightBtn_click table25))
  = view (rightBtn_click table25) ∧
  loadingShown (settle (Rejected "timeout") (rightBtn_click table25)) = false.
Proof.
  split.
  - refine (proj1 (proj1 (proj2 (proj2 (proj2
      (failed_fetch_keeps_state table25 "timeout"))))
      (rightBtn_click table25) _));
      vm_compute; lia.
  - refine (proj2 (proj2 (proj2 (proj2
      (failed_fetch_keeps_state table25 "timeout"))))
      (rightBtn_click table25) (Rejected "timeout") _);
      vm_compute; lia.
Defined.

(** ** Searching *)

Lemma ltrim_split (s : string) :
  ∃ pre, s = pre +:+ ltrim s ∧ all_space pre = true.
Proof.
  induction s as [| c r [pre [Hr Hpre]]]; cbn.
  - exists EmptyString. split; reflexivity.
  - destruct (is_space c) eqn:Hc.
    + exists (String c pre). split.
      * change (String c r = String c (pre +:+ ltrim r)). f_equal. exact Hr.
      * cbn. rewrite Hc. exact Hpre.
    + exists EmptyString. split; reflexivity.
Qed.

Lemma ltrim_starts (s : string) : starts_with_space (ltrim s) = false.
Proof.
  induction s as [| c r IH]; cbn; [reflexivity |].
  destruct (is_space c) eqn:Hc; [exact IH | cbn; exact Hc].
Qed.

Lemma rtrim_split (s : string) :
  ∃ post, s = rtrim s +:+ post ∧ all_space post = true.
Proof.
  induction s as [| c r [post [Hr Hpost]]]; cbn.
  - exists EmptyString. split; reflexivity.
  - destruct (rtrim r) as [| c' r'] eqn:Hrt.
    + change (r = post) in Hr. subst post. destruct (is_space c) eqn:Hc.
      * exists (String c r). split; [reflexivity |].
        cbn. rewrite Hc. exact Hpost.
      * exists r. split; [reflexivity | exact Hpost].
    + exists post. split; [| exact Hpost].
      change (String c r = String c (String c' r' +:+ post)).
      f_equal. exact Hr.
Qed.

Lemma rtrim_ends (s : string) : ends_with_space (rtrim s) = false.
Proof.
  induction s as [| c r IH]; cbn; [reflexivity |].
  destruct (rtrim r) as [| c' r'] eqn:Hrt.
  - destruct (is_space c) eqn:Hc; cbn; [reflexivity | exact Hc].
  - exact IH.
Qed.

Lemma rtrim_starts (s : string) :
  starts_with_space s = false → starts_with_space (rtrim s) = false.
Proof.
  destruct s as [| c r]; cbn; [reflexivity |]. intros Hc.
  destruct (rtrim r); [rewrite Hc |]; cbn; exact Hc.
Qed.

(** [trim] takes whitespace, and nothing else, off both ends. *)
Lemma trim_spec (s : string) :
  (∃ pre post, s = pre +:+ trim s +:+ post ∧
               all_space pre = true ∧ all_space post = true) ∧
  starts_with_space (trim s) = false ∧
  ends_with_space (trim s) = false.
Proof.
  unfold trim. split; [| split].
  - destruct (ltrim_split s) as [pre [Hs Hpre]].
    destruct (rtrim_split (ltrim s)) as [post [Hl Hpost]].
    exists pre, post. rewrite <- Hl. auto.
  - apply rtrim_starts, ltrim_starts.
  - apply rtrim_ends.
Qed.

(** C6.  Whatever the search box holds and whatever the page was, the
    [keyup] handler stores the trimmed text as the query (the text without
    the whitespace at its two ends), sets [currentPage] to 0 and makes one
    fetch, for page 0 with that query and the current sort; with "foo" in
    the box the page becomes 0 and the query "foo". *)
Theorem search_resets_page (val : string) (w : Widget) :
  currentQuery (search_keyup val w) = Str (trim val) ∧
  ((∃ pre post, val = pre +:+ trim val +:+ post ∧
                all_space pre = true ∧ all_space post = true) ∧
   starts_with_space (trim val) = false ∧
   ends_with_space (trim val) = false) ∧
  currentPage (search_keyup val w) = 0%Z ∧
  calls (search_keyup val w) =
    (calls w ++ [mkFetchCall 0 (Str (trim val)) (currentSort_id w)
                   (currentSort_sortState w)])%list ∧
  pending (search_keyup val w) = S (pending w) ∧
  loadingShown (search_keyup val w) = true ∧
  currentPage (search_keyup "foo" w) = 0%Z ∧
  currentQuery (search_keyup "foo" w) = Str "foo".
Proof.
  split; [reflexivity |]. split; [apply trim_spec |].
  repeat split; reflexivity.
Qed.

(** ** Updating *)

Section Updating.


(** When [setData] has thrown, [update] has not reached the window. *)
Lemma update_thrown (data : PageData) (w : Widget) (e : JsError) :
  (update data w).2 = Some e →
  start (update data w).1 = start w ∧ end_ (update data w).1 = end_ w ∧
  total (update data w).1 = total w ∧
  shownText (update data w).1 = shownText w.
Proof.
  destruct (update_state data w) as [-> ->]. intros ->.
  rewrite setData_state. repeat split; reflexivity.
Qed.

End Updating.




(** ** The first fetches *)

Section Quiet.

Lemma quiet_inv_getNewData (w : Widget) : quiet_inv w → quiet_inv (getNewData w).
Proof.
  intros (Hq & Hs & Hc). unfold quiet_inv, getNewData; cbn.
  split; [exact Hq |]. split; [exact Hs |].
  apply Forall_app. split; [exact Hc |].
  constructor; [| constructor]. unfold unset_call; cbn.
  split; [exact Hq |]. unfold currentSort_sortState; cbn. rewrite Hs.
  reflexivity.
Qed.

Lemma quiet_inv_settle (o : Outcome) (w : Widget) : quiet_inv w → quiet_inv (settle o w).
Proof.
  intros Hinv. unfold quiet_inv.
  destruct (settle_core o w) as (_ & _ & -> & -> & _ & _ & -> & _).
  exact Hinv.
Qed.

Lemma quiet_inv_step (w : Widget) (e : Event) :
  quiet e → quiet_inv w → quiet_inv (step w e).
Proof.
  intros He Hinv. destruct e as [| | val | i | r k | o | l r]; unfold step;
    try destruct He.
  - unfold leftBtn_click. rewrite getPrevPage_spec.
    destruct (negb _); [apply quiet_inv_getNewData |]; exact Hinv.
  - unfold rightBtn_click. rewrite getNextPage_spec; cbv beta iota zeta.
    destruct (negb _); [apply quiet_inv_getNewData |]; exact Hinv.
  - unfold cell_click. destruct (tBody w !! r) as [tr |]; [| exact Hinv].
    destruct (tr_cells tr !! k ≫= first_child_text); exact Hinv.
  - apply quiet_inv_settle, Hinv.
  - exact Hinv.
Qed.

Lemma quiet_inv_run (es : list Event) (w : Widget) :
  Forall quiet es → quiet_inv w → quiet_inv (run w es).
Proof.
  revert w; induction es as [| e es IH]; intros w Hes Hinv; [exact Hinv |].
  inversion Hes as [| ? ? He Hes']; subst.
  apply (IH (step w e) Hes'), quiet_inv_step; assumption.
Qed.

End Quiet.

(** C10.  The constructor makes one fetch, for page 0, with [undefined] as
    the query, [null] as the sort column and [undefined] as the sort
    direction.  As long as no key is released in the search box and no sort
    button is pressed, every fetch is made with [undefined] as the query
    and [undefined] as the sort direction, which is neither the empty
    string, nor [null], nor the state none (0). *)
Theorem first_fetches_pass_undefined (o : Options) (s : gmap nat Row)
  (es : list Event) :
  calls (construct o s) = [mkFetchCall 0 Undefined Null Undefined] ∧
  (Forall quiet es →
   Forall (fun c => f_query c = Undefined ∧ f_sortDir c = Undefined)
     (calls (run (construct o s) es)) ∧
   currentQuery (run (construct o s) es) = Undefined ∧
   currentSort_sortState (run (construct o s) es) = Undefined) ∧
  Undefined ≠ Str "" ∧ Undefined ≠ Null ∧ Undefined ≠ Num 0.
Proof.
  split; [reflexivity |]. split; [| repeat split; discriminate].
  intros Hes.
  assert (Hinv : quiet_inv (construct o s)).
  { apply quiet_inv_getNewData. repeat split. constructor. }
  destruct (quiet_inv_run es _ Hes Hinv) as (Hq & Hs & Hc).
  split; [exact Hc |]. split; [exact Hq |].
  unfold currentSort_sortState. rewrite Hs. reflexivity.
Qed.

Lemma first_fetches_pass_undefined_witness :
  Forall (fun c => f_query c = Undefined ∧ f_sortDir c = Undefined)
    (calls (run (construct people_byIndex people_store)
              [Settle (Resolved (mkPageData [0; 1]%nat 0 25));
               ClickRight; Settle (Rejected "timeout"); ClickLeft])).
Proof.
  refine (proj1 (proj1 (proj2
    (first_fetches_pass_undefined people_byIndex people_store
       [Settle (Resolved (mkPageData [0; 1]%nat 0 25));
        ClickRight; Settle (Rejected "timeout"); ClickLeft])) _)).
  repeat constructor.
Defined.

(** ** Decorating *)

Section Decorating.

Lemma string_app_assoc (a b c : string) : (a +:+ b) +:+ c = a +:+ b +:+ c.
Proof.
  induction a as [| x a IH]; [reflexivity |].
  change (String x ((a +:+ b) +:+ c) = String x (a +:+ b +:+ c)).
  f_equal. exact IH.
Qed.

Lemma string_app_nil_r (a : string) : a +:+ EmptyString = a.
Proof.
  induction a as [| x a IH]; [reflexivity |].
  change (String x (a +:+ EmptyString) = String x a). f_equal. exact IH.
Qed.

Lemma string_app_length (a b : string) :
  String.length (a +:+ b) = String.length a + String.length b.
Proof.
  induction a as [| x a IH]; [reflexivity |].
  change (S (String.length (a +:+ b)) = S (String.length a + String.length b)).
  f_equal. exact IH.
Qed.


Lemma row_set_returns (r : Row) (k : ColKey) (v : string) :
  prop_key k ≠ PLength → ∃ r', row_set r k v = Done r'.
Proof.
  unfold row_set. destruct (prop_key k) as [i | | | s]; intros Hk;
    [| congruence | |]; try (eexists; reflexivity).
  destruct (i <? length (elems r))%nat; eexists; reflexivity.
Qed.

Lemma row_set_throws (r : Row) (k : ColKey) (v : string) :
  prop_key k = PLength → row_set r k v = Thrown RangeError.
Proof. unfold row_set. intros ->. reflexivity. Qed.





Lemma decorate_wraps (r : Row) (dec : Decoration) :
  wraps dec →
  decorate r dec =
  row_set r (col dec) (wrap dec (cell_text (row_get r (col dec)))).
Proof.
  unfold wraps, decorate, wrap. intros [H | H]; rewrite H; reflexivity.
Qed.

Lemma decorate_other_type (r : Row) (dec : Decoration) :
  ¬ wraps dec → decorate r dec = Done r.
Proof.
  unfold wraps, decorate. intros Hn.
  destruct (String.eqb_spec (dtype dec) "link"); [tauto |].
  destruct (String.eqb_spec (dtype dec) "button"); [tauto | reflexivity].
Qed.

Lemma wraps_dec (dec : Decoration) : {wraps dec} + {¬ wraps dec}.
Proof.
  unfold wraps.
  destruct (String.eqb_spec (dtype dec) "link"); [left; tauto |].
  destruct (String.eqb_spec (dtype dec) "button"); [left | right]; tauto.
Qed.

(** The rules that throw are those of type link or button for the
    length. *)
Lemma rule_throws_spec (dec : Decoration) :
  rule_throws dec = true ↔ wraps dec ∧ prop_key (col dec) = PLength.
Proof.
  unfold rule_throws, wraps.
  rewrite andb_true_iff, orb_true_iff, bool_decide_eq_true.
  rewrite !String.eqb_eq. reflexivity.
Qed.

Lemma decorate_throws (r : Row) (dec : Decoration) :
  rule_throws dec = true → decorate r dec = Thrown RangeError.
Proof.
  intros [Hw Hk]%rule_throws_spec.
  rewrite decorate_wraps by exact Hw. apply row_set_throws, Hk.
Qed.

Lemma decorate_returns (r : Row) (dec : Decoration) :
  rule_throws dec = false → decorate r dec = Done (decorate_step r dec).
Proof.
  intros Hf. unfold decorate_step.
  destruct (wraps_dec dec) as [Hw | Hn].
  - assert (Hk : prop_key (col dec) ≠ PLength).
    { intros Hk. assert (rule_throws dec = true) by
        (apply rule_throws_spec; split; assumption). congruence. }
    rewrite decorate_wraps by exact Hw.
    destruct (row_set_returns r (col dec)
                (wrap dec (cell_text (row_get r (col dec)))) Hk) as [r' ->].
    reflexivity.
  - rewrite decorate_other_type by exact Hn. reflexivity.
Qed.














(** The rules of a row run to the end exactly when none of them throws. *)
Lemma decorate_all_returns (r : Row) (decs : list Decoration) :
  Forall (fun d => rule_throws d = false) decs →
  decorate_all r decs = (foldl decorate_step r decs, None).
Proof.
  intros Hall. revert r; induction Hall as [| d ds Hd _ IH]; intros r;
    [reflexivity |].
  cbn. rewrite decorate_returns by exact Hd. apply IH.
Qed.

Lemma decorate_all_returned (r : Row) (decs : list Decoration) :
  (decorate_all r decs).2 = None →
  Forall (fun d => rule_throws d = false) decs.
Proof.
  revert r; induction decs as [| d ds IH]; intros r; [constructor |].
  cbn. destruct (rule_throws d) eqn:Hd.
  - rewrite decorate_throws by exact Hd. discriminate.
  - rewrite decorate_returns by exact Hd. intros H.
    constructor; [exact Hd | exact (IH _ H)].
Qed.

(** A rule that throws leaves the array as the rules before it made it. *)
Lemma decorate_all_thrown (r : Row) (dec : Decoration)
  (rest : list Decoration) :
  rule_throws dec = true →
  decorate_all r (dec :: rest) = (r, Some RangeError).
Proof. intros Hd. cbn. rewrite decorate_throws by exact Hd. reflexivity. Qed.

End Decorating.

(** ** Rendering rows *)

Section Rendering.

Variable decs : list Decoration.

Lemma repeat_rules_Forall (P : Decoration → Prop) (n : nat) :
  Forall P decs → Forall P (repeat_rules n decs).
Proof.
  intros H. induction n as [| n IH]; cbn; [constructor |].
  apply Forall_app. split; assumption.
Qed.

(** One pass of the loop that does not throw. *)
Lemma setData_row_returned (st : gmap nat Row * list RenderedRow) (x : nat) :
  (setData_row decs st x).2 = None →
  (is_Some (st.1 !! x) → Forall (fun d => rule_throws d = false) decs) ∧
  ∀ l, (setData_row decs st x).1.1 !! l =
       (fun r => foldl decorate_step r
                   (repeat_rules (if Nat.eqb x l then 1 else 0) decs))
         <$> st.1 !! l.
Proof.
  unfold setData_row. destruct (st.1 !! x) as [r |] eqn:Hx.
  - destruct (decorate_all r decs) as [r' thrown] eqn:Hall.
    destruct thrown as [e |]; [discriminate |].
    assert (Hno : Forall (fun d => rule_throws d = false) decs).
    { apply (decorate_all_returned r). rewrite Hall. reflexivity. }
    rewrite (decorate_all_returns r decs Hno) in Hall.
    injection Hall as <-.
    destruct (tableRow _) as [markup | e]; [| discriminate].
    intros _. split; [intros _; exact Hno |]. intros l. cbn [fst snd].
    destruct (Nat.eqb_spec x l) as [<- | Hne].
    + rewrite lookup_insert_eq, Hx. cbn. rewrite app_nil_r. reflexivity.
    + rewrite lookup_insert_ne by exact Hne.
      destruct (st.1 !! l); reflexivity.
  - intros _. split; [intros [r Hr]; discriminate |]. intros l. cbn [fst snd].
    destruct (Nat.eqb_spec x l) as [<- | Hne].
    + rewrite Hx. reflexivity.
    + destruct (st.1 !! l); reflexivity.
Qed.

(** The row array at [l] after a [setData] that returns: the rules have
    been applied to it once for each time it is listed. *)
Lemma setData_rows_lookup (data : list nat)
  (st : gmap nat Row * list RenderedRow) (l : nat) :
  (setData_rows decs st data).2 = None →
  (setData_rows decs st data).1.1 !! l =
  (fun r => foldl decorate_step r (repeat_rules (occurrences l data) decs))
    <$> st.1 !! l.
Proof.
  revert st; induction data as [| x data IH]; intros st; cbn.
  - intros _. destruct (st.1 !! l); reflexivity.
  - destruct (setData_row decs st x) as [st' [e |]] eqn:Hrow;
      [discriminate |].
    intros Hret. rewrite (IH st' Hret).
    destruct (setData_row_returned st x) as [_ Hl];
      [rewrite Hrow; reflexivity |].
    rewrite Hrow in Hl. cbn [fst] in Hl. rewrite Hl.
    destruct (st.1 !! l) as [r |]; [| reflexivity]. cbn. f_equal.
    destruct (Nat.eqb x l); cbn.
    + rewrite app_nil_r, foldl_app. reflexivity.
    + reflexivity.
Qed.



Lemma occurrences_not_elem (l : nat) (data : list nat) :
  l ∉ data → occurrences l data = 0.
Proof.
  induction data as [| x data IH]; intros Hnin; [reflexivity |].
  apply not_elem_of_cons in Hnin as [Hne Hnin]. cbn.
  destruct (Nat.eqb_spec x l) as [-> | _]; [congruence |]. exact (IH Hnin).
Qed.

Lemma occurrences_NoDup (l : nat) (data : list nat) :
  NoDup data → l ∈ data → occurrences l data = 1.
Proof.
  induction data as [| x data IH]; intros Hnd Hin; [inversion Hin |].
  apply NoDup_cons in Hnd as [Hnin Hnd]. cbn.
  destruct (Nat.eqb_spec x l) as [-> | Hne].
  - rewrite occurrences_not_elem by exact Hnin. reflexivity.
  - apply elem_of_cons in Hin as [-> | Hin]; [congruence |]. exact (IH Hnd Hin).
Qed.

End Rendering.

Lemma setData_returned (data : list nat) (w : Widget) :
  (setData data w).2 = (setData_rows (decoration w) (rows w, []) data).2 ∧
  rows (setData data w).1
  = (setData_rows (decoration w) (rows w, []) data).1.1 ∧
  tBody (setData data w).1
  = (setData_rows (decoration w) (rows w, []) data).1.2.
Proof.
  unfold setData.
  destruct (setData_rows (decoration w) (rows w, []) data) as [st thrown].
  repeat split; reflexivity.
Qed.

(** A rule whose [col] is no position writes beside the cells: the cells
    of the row are what they were, and there is nothing for its handler to
    be bound to. *)
Lemma decorate_by_name_keeps_cells (r : Row) (k : ColKey) (type : string)
  (f : option string) (cells : list string) :
  (∀ i, prop_key k ≠ PIndex i) →
  elems (decorate_step r (mkDecoration k type f)) = elems r ∧
  bind_clicks cells [mkDecoration k type f] = [].
Proof.
  intros Hk. split.
  - unfold decorate_step, decorate, row_set; cbn [dtype col].
    destruct (prop_key k) as [i | | | s]; [destruct (Hk i); reflexivity | | |];
      destruct (String.eqb type "link"); try reflexivity;
      destruct (String.eqb type "button"); reflexivity.
  - unfold bind_clicks, find_clickElem; cbn.
    destruct (prop_key k) as [i | | | s]; [destruct (Hk i); reflexivity | | |];
      destruct f; reflexivity.
Qed.

(** A row array that comes back on a later page is wrapped again: in
    Alice's row, shown twice, the first cell holds a link in a link. *)
Lemma shown_twice_wrapped_twice :
  (rows (settle (Resolved people_page) (getNewData shown_byIndex)) !! 0%nat)
    ≫= (fun r => row_get r (ColIdx 0))
  = Some (link_open +:+ link_open +:+ "Alice" +:+ link_close +:+ link_close).
Proof. vm_compute. reflexivity. Qed.




(** ** Decoration rules and the column they name *)

(** A rule keyed by position does what the header comment of the file
    shows: the first cell of Alice's row is rendered as a link with the
    text "Alice", a handler is bound to it, and a click on it calls [f]
    once, with "Alice". *)
Lemma decoration_by_position_applies :
  tBody shown_byIndex =
    [mkRenderedRow
       ("<td>" +:+ link_open +:+ "Alice" +:+ link_close +:+ "</td>,<td>30</td>")
       [link_open +:+ "Alice" +:+ link_close; "30"]
       [(0%nat, "f")]] ∧
  first_child_text (link_open +:+ "Alice" +:+ link_close) = Some "Alice" ∧
  clicked (cell_click 0 0 shown_byIndex) = [("f", "Alice")].
Proof.
  split; [vm_compute; reflexivity |].
  split; vm_compute; reflexivity.
Qed.

Lemma cell_click_byId (r k : nat) : cell_click r k shown_byId = shown_byId.
Proof.
  destruct r as [| r]; [| vm_compute; reflexivity].
  destruct k as [| [| k]]; vm_compute; reflexivity.
Qed.

(** C8.  With the rule [{col: 'name', type: 'link', clickFunction: f}],
    keyed by the id of the first column, and the row [['Alice','30']], the
    code renders the first cell as the plain text "Alice": the markup of
    the row has no link, no click handler is bound, and no click on any
    cell calls [f].  The link markup, around "undefined", is stored in the
    row array as a property named "name". *)
Theorem decoration_by_column_id_is_lost (cs : list (nat * nat)) :
  tBody shown_byId =
    [mkRenderedRow "<td>Alice</td>,<td>30</td>" ["Alice"; "30"] []] ∧
  rows shown_byId !! 0%nat =
    Some (mkRow [Some "Alice"; Some "30"]
            {["name" := link_open +:+ "undefined" +:+ link_close]}) ∧
  clicked (run shown_byId (cell_clicks cs)) = [].
Proof.
  split; [vm_compute; reflexivity |]. split; [vm_compute; reflexivity |].
  assert (Hrun : run shown_byId (cell_clicks cs) = shown_byId).
  { induction cs as [| [r k] cs IH]; [reflexivity |].
    unfold run in *. cbn [cell_clicks map foldl step fst snd].
    rewrite cell_click_byId. exact IH. }
  rewrite Hrun. reflexivity.
Qed.

(** * Further properties of the table *)

(** ** What the events leave alone *)

Section Frames.

Lemma getNewData_fields (w : Widget) :
  currentPage (getNewData w) = currentPage w ∧
  currentSort (getNewData w) = currentSort w ∧
  sortIcons (getNewData w) = sortIcons w ∧
  calls (getNewData w) =
    (calls w ++ [mkFetchCall (currentPage w) (currentQuery w)
                   (currentSort_id w) (currentSort_sortState w)])%list ∧
  pending (getNewData w) = S (pending w) ∧
  loadingShown (getNewData w) = true.
Proof. repeat split; reflexivity. Qed.

Lemma settle_fields (o : Outcome) (w : Widget) :
  currentPage (settle o w) = currentPage w ∧
  currentSort (settle o w) = currentSort w ∧
  calls (settle o w) = calls w.
Proof.
  destruct (settle_core o w) as (_ & H1 & _ & H2 & _ & _ & H3 & _).
  repeat split; assumption.
Qed.

Lemma cell_click_fields (r k : nat) (w : Widget) :
  currentPage (cell_click r k w) = currentPage w ∧
  currentSort (cell_click r k w) = currentSort w ∧
  sortIcons (cell_click r k w) = sortIcons w ∧
  calls (cell_click r k w) = calls w ∧
  pending (cell_click r k w) = pending w ∧
  loadingShown (cell_click r k w) = loadingShown w.
Proof.
  unfold cell_click. destruct (tBody w !! r) as [tr |]; [| repeat split].
  destruct (tr_cells tr !! k ≫= first_child_text); repeat split; reflexivity.
Qed.

(** The page buttons: the widget with another page, fetched or not. *)
Lemma leftBtn_click_cases (w : Widget) :
  leftBtn_click w = set_currentPage (Z.max 0 (currentPage w - 1)) w ∨
  leftBtn_click w =
    getNewData (set_currentPage (Z.max 0 (currentPage w - 1)) w).
Proof.
  unfold leftBtn_click. rewrite getPrevPage_spec.
  destruct (negb _); [right | left]; reflexivity.
Qed.

Lemma rightBtn_click_cases (w : Widget) :
  ∃ p, (p = currentPage w ∨ p = (currentPage w + 1)%Z) ∧
       (rightBtn_click w = set_currentPage p w ∨
        rightBtn_click w = getNewData (set_currentPage p w)).
Proof.
  unfold rightBtn_click. rewrite getNextPage_spec; cbv beta iota zeta.
  eexists. split; [| destruct (negb _); [right | left]; reflexivity].
  destruct (_ <? _)%Z; [right | left]; reflexivity.
Qed.

End Frames.

(** X1.  The page index is never negative, whatever the options, the
    responses and the order of events. *)
Theorem currentPage_never_negative (o : Options) (s : gmap nat Row)
  (es : list Event) :
  (0 ≤ currentPage (run (construct o s) es))%Z.
Proof.
  assert (Hstep : ∀ w e, (0 ≤ currentPage w)%Z → (0 ≤ currentPage (step w e))%Z).
  { intros w e Hw. destruct e as [| | val | i | r k | out | l r]; unfold step.
    - destruct (leftBtn_click_cases w) as [-> | ->]; cbn; lia.
    - destruct (rightBtn_click_cases w) as (p & Hp & [-> | ->]); cbn; lia.
    - cbn. lia.
    - unfold sortBtn_click. destruct (headers w !! i) as [h |]; [| exact Hw].
      destruct (isSortable h); exact Hw.
    - destruct (cell_click_fields r k w) as [-> _]. exact Hw.
    - destruct (settle_fields out w) as [-> _]. exact Hw.
    - exact Hw. }
  assert (Hrun : ∀ es' w, (0 ≤ currentPage w)%Z → (0 ≤ currentPage (run w es'))%Z).
  { induction es' as [| e es' IH]; intros w Hw; [exact Hw |].
    apply (IH (step w e)), Hstep, Hw. }
  apply Hrun. cbn. lia.
Qed.

(** ** The sort that is sent *)

Section SortArgs.

Lemma sort_link_ext (w w' : Widget) :
  currentSort w' = currentSort w → headers w' = headers w →
  sort_link w → sort_link w'.
Proof. unfold sort_link. intros -> ->. auto. Qed.

Lemma sort_link_args (w : Widget) :
  sort_link w →
  sort_args_ok (mkFetchCall (currentPage w) (currentQuery w)
                  (currentSort_id w) (currentSort_sortState w)).
Proof.
  unfold sort_link, sort_args_ok, currentSort_id, currentSort_sortState; cbn.
  destruct (currentSort w) as [| i]; [auto |].
  intros (h & -> & _ & [-> | ->]); right; exists (h_id h); auto.
Qed.

Lemma sort_link_getNewData (w : Widget) :
  sort_link w ∧ Forall sort_args_ok (calls w) →
  sort_link (getNewData w) ∧ Forall sort_args_ok (calls (getNewData w)).
Proof.
  intros [Hl Hc]. split; [exact Hl |].
  destruct (getNewData_fields w) as (_ & _ & _ & -> & _).
  apply Forall_app. split; [exact Hc |].
  constructor; [apply sort_link_args, Hl | constructor].
Qed.

Lemma next_sortState_cases (z : Z) :
  next_sortState z = 1%Z ∨ next_sortState z = (-1)%Z.
Proof. unfold next_sortState. destruct (z <? 1)%Z; auto. Qed.

Lemma sort_link_sortBtn_click (w : Widget) (i : nat) :
  sort_link w ∧ Forall sort_args_ok (calls w) →
  sort_link (sortBtn_click i w) ∧
  Forall sort_args_ok (calls (sortBtn_click i w)).
Proof.
  intros Hinv. unfold sortBtn_click.
  destruct (headers w !! i) as [h |] eqn:Hi; [| exact Hinv].
  destruct (isSortable h) eqn:Hs; [| exact Hinv].
  apply sort_link_getNewData. split; [| exact (proj2 Hinv)].
  unfold sort_link; cbn.
  exists (set_sortState (next_sortState (sortState h)) h).
  rewrite list_lookup_alter_eq, reset_sort_lookup, Hi.
  split; [reflexivity |]. split; [exact Hs |]. apply next_sortState_cases.
Qed.

Lemma sort_link_step (w : Widget) (e : Event) :
  sort_link w ∧ Forall sort_args_ok (calls w) →
  sort_link (step w e) ∧ Forall sort_args_ok (calls (step w e)).
Proof.
  intros Hinv. destruct e as [| | val | i | r k | out | l r]; unfold step.
  - destruct (leftBtn_click_cases w) as [-> | ->];
      [| apply sort_link_getNewData]; exact Hinv.
  - destruct (rightBtn_click_cases w) as (p & _ & [-> | ->]);
      [| apply sort_link_getNewData]; exact Hinv.
  - apply sort_link_getNewData. exact Hinv.
  - apply sort_link_sortBtn_click, Hinv.
  - destruct (cell_click_fields r k w) as (_ & Hs & _ & Hc & _).
    rewrite Hc. split; [| exact (proj2 Hinv)].
    apply (sort_link_ext w); [exact Hs | | exact (proj1 Hinv)].
    apply (headers_step w (ClickCell r k)). discriminate.
  - destruct (settle_fields out w) as (_ & Hs & Hc).
    rewrite Hc. split; [| exact (proj2 Hinv)].
    apply (sort_link_ext w);
      [exact Hs | apply headers_settle | exact (proj1 Hinv)].
  - exact Hinv.
Qed.

Lemma sort_link_run (es : list Event) (w : Widget) :
  sort_link w ∧ Forall sort_args_ok (calls w) →
  sort_link (run w es) ∧ Forall sort_args_ok (calls (run w es)).
Proof.
  revert w; induction es as [| e es IH]; intros w Hinv; [exact Hinv |].
  apply (IH (step w e)), sort_link_step, Hinv.
Qed.

Lemma sort_link_construct (o : Options) (s : gmap nat Row) :
  sort_link (construct o s) ∧ Forall sort_args_ok (calls (construct o s)).
Proof.
  apply sort_link_getNewData. split; [| constructor].
  unfold sort_link; cbn. change (map makeTableHeader) with reset_sort.
  apply active_sorts_reset.
Qed.

Lemma currentSort_step_sticky (w : Widget) (e : Event) :
  currentSort w ≠ InitialSort → currentSort (step w e) ≠ InitialSort.
Proof.
  intros Hw. destruct e as [| | val | i | r k | out | l r]; unfold step.
  - destruct (leftBtn_click_cases w) as [-> | ->]; exact Hw.
  - destruct (rightBtn_click_cases w) as (p & _ & [-> | ->]); exact Hw.
  - exact Hw.
  - unfold sortBtn_click. destruct (headers w !! i) as [h |]; [| exact Hw].
    destruct (isSortable h); [discriminate | exact Hw].
  - destruct (cell_click_fields r k w) as (_ & -> & _). exact Hw.
  - destruct (settle_fields out w) as (_ & -> & _). exact Hw.
  - exact Hw.
Qed.

End SortArgs.

(** X2.  Every fetch is made either with [null] as the sort column and
    [undefined] as the direction, or with the id of a column and the
    direction 1 or -1: the direction none (0) is never sent. *)
Theorem fetches_never_pass_sort_none (o : Options) (s : gmap nat Row)
  (es : list Event) :
  Forall sort_args_ok (calls (run (construct o s) es)) ∧
  Forall (fun c => f_sortDir c ≠ Num 0) (calls (run (construct o s) es)).
Proof.
  pose proof (proj2 (sort_link_run es _ (sort_link_construct o s))) as Hc.
  split; [exact Hc |].
  eapply Forall_impl; [exact Hc |].
  intros c [[_ ->] | (id & _ & [-> | ->])]; discriminate.
Qed.

(** X3.  Until a sort button is pressed no header is sorted; afterwards
    [currentSort] is a sortable header in state 1 or -1 and it is the one
    sorted header.  Once a column is sorted there is no event that takes
    the table back to the unsorted state. *)
Theorem sort_is_sticky (o : Options) (s : gmap nat Row) (es es' : list Event) :
  let w := run (construct o s) es in
  (currentSort w = InitialSort → active_sorts (headers w) = 0%nat) ∧
  (∀ i, currentSort w = HeaderRef i →
        ∃ h, headers w !! i = Some h ∧ isSortable h = true ∧
             (sortState h = 1%Z ∨ sortState h = (-1)%Z) ∧
             active_sorts (headers w) = 1%nat) ∧
  (currentSort w ≠ InitialSort → currentSort (run w es') ≠ InitialSort).
Proof.
  intros w.
  pose proof (proj1 (sort_link_run es _ (sort_link_construct o s))) as Hl.
  pose proof (proj2 (sort_inv_run es _ (sort_inv_construct o s))) as Hle.
  fold w in Hl, Hle. unfold sort_link in Hl.
  split; [| split].
  - intros Hs. rewrite Hs in Hl. exact Hl.
  - intros i Hs. rewrite Hs in Hl. destruct Hl as (h & Hi & Hsort & Hst).
    exists h. repeat split; try assumption.
    assert (Hnz : sortState h ≠ 0%Z) by (destruct Hst; lia).
    pose proof (active_sorts_lookup _ i h Hi Hnz). lia.
  - generalize w. induction es' as [| e es' IH]; intros w0 Hw0; [exact Hw0 |].
    apply (IH (step w0 e)), currentSort_step_sticky, Hw0.
Qed.

Lemma sort_is_sticky_witness :
  currentSort (run (run (construct people_byIndex people_store) [ClickSort 1])
                 [Settle (Rejected "timeout"); KeyUp "a"; ClickLeft])
  ≠ InitialSort.
Proof.
  refine (proj2 (proj2
    (sort_is_sticky people_byIndex people_store [ClickSort 1]
       [Settle (Rejected "timeout"); KeyUp "a"; ClickLeft])) _).
  vm_compute. discriminate.
Defined.

(** X4.  Pressing the sort button of a sortable header keeps the page and
    the query and makes one fetch, for the current page, with the id of
    that header and its new state, 1 or -1.  A header that is not sortable,
    or that does not exist, has no button: nothing changes. *)
Theorem sort_click_fetches_same_page (w : Widget) (i : nat) :
  (∀ h, headers w !! i = Some h → isSortable h = true →
        currentPage (sortBtn_click i w) = currentPage w ∧
        currentQuery (sortBtn_click i w) = currentQuery w ∧
        calls (sortBtn_click i w) =
          (calls w ++ [mkFetchCall (currentPage w) (currentQuery w)
                         (Str (h_id h))
                         (Num (next_sortState (sortState h)))])%list ∧
        (next_sortState (sortState h) = 1%Z ∨
         next_sortState (sortState h) = (-1)%Z)) ∧
  (headers w !! i = None → sortBtn_click i w = w) ∧
  (∀ h, headers w !! i = Some h → isSortable h = false →
        sortBtn_click i w = w).
Proof.
  split; [| split].
  - intros h Hi Hs. unfold sortBtn_click. rewrite Hi, Hs.
    split; [reflexivity |]. split; [reflexivity |].
    split; [| apply next_sortState_cases].
    unfold getNewData, currentSort_id, currentSort_sortState; cbn.
    rewrite list_lookup_alter_eq, reset_sort_lookup, Hi. reflexivity.
  - intros Hi. unfold sortBtn_click. rewrite Hi. reflexivity.
  - intros h Hi Hs. unfold sortBtn_click. rewrite Hi, Hs. reflexivity.
Qed.

Lemma sort_click_fetches_same_page_witness :
  calls (sortBtn_click 1 (rightBtn_click table25wide)) =
  (calls (rightBtn_click table25wide) ++
   [mkFetchCall 1 Undefined (Str "age") (Num 1)])%list.
Proof.
  refine (proj1 (proj2 (proj2 (proj1
    (sort_click_fetches_same_page (rightBtn_click table25wide) 1)
    (mkHeader "age" "Age" true 0) _ _)))); vm_compute; reflexivity.
Defined.

(** ** Sort icons *)

Section Icons.

Lemma isSortable_reset_sort (hs : list Header) :
  isSortable <$> reset_sort hs = isSortable <$> hs.
Proof.
  unfold reset_sort. induction hs as [| h hs IH]; [reflexivity |].
  cbn. f_equal. exact IH.
Qed.

Lemma isSortable_alter (v : Z) (i : nat) (hs : list Header) :
  isSortable <$> alter (set_sortState v) i hs = isSortable <$> hs.
Proof.
  revert i; induction hs as [| h hs IH]; intros [| i]; try reflexivity.
  cbn. f_equal. apply IH.
Qed.

Lemma icons_aligned_ext (w w' : Widget) :
  sortIcons w' = sortIcons w → isSortable <$> headers w' = isSortable <$> headers w →
  icons_aligned w → icons_aligned w'.
Proof. unfold icons_aligned. intros -> ->. auto. Qed.

Lemma icons_aligned_lookup (w : Widget) (i : nat) :
  icons_aligned w →
  (fun o : option string => bool_decide (is_Some o)) <$> sortIcons w !! i
  = isSortable <$> headers w !! i.
Proof.
  unfold icons_aligned. intros Hal.
  rewrite <- !list_lookup_fmap, Hal. reflexivity.
Qed.

(** [update] leaves a sort icon where there is one, with the class of the
    header's state, and none where there is none. *)
Lemma update_icons_aligned (w : Widget) :
  icons_aligned w → update_icons w = icon_of <$> headers w.
Proof.
  intros Hal. apply list_eq. intros i.
  pose proof (icons_aligned_lookup w i Hal) as Hi.
  unfold update_icons.
  rewrite list_lookup_imap, list_lookup_fmap.
  destruct (sortIcons w !! i) as [old |], (headers w !! i) as [h |];
    cbn in *; try discriminate; [| reflexivity].
  injection Hi as Hi. unfold icon_of. f_equal.
  destruct (isSortable h), old; cbn in *;
    first [reflexivity | discriminate].
Qed.

Lemma sortIcons_update (data : PageData) (w : Widget) :
  icons_aligned w → sortIcons (update data w).1 = icon_of <$> headers w.
Proof.
  intros Hal. rewrite sortIcons_update_icons.
  apply update_icons_aligned, Hal.
Qed.

Lemma icons_aligned_construct (o : Options) (s : gmap nat Row) :
  icons_aligned (construct o s).
Proof.
  unfold icons_aligned; cbn.
  induction (o_headers o) as [| h hs IH]; [reflexivity |].
  cbn. f_equal; [| exact IH].
  unfold makeTableHeader_icon. destruct (isSortable h); reflexivity.
Qed.

Lemma icons_aligned_step (w : Widget) (e : Event) :
  icons_aligned w → icons_aligned (step w e).
Proof.
  intros Hal. destruct e as [| | val | i | r k | out | l r]; unfold step.
  - destruct (leftBtn_click_cases w) as [-> | ->]; exact Hal.
  - destruct (rightBtn_click_cases w) as (p & _ & [-> | ->]); exact Hal.
  - exact Hal.
  - unfold sortBtn_click. destruct (headers w !! i) as [h |]; [| exact Hal].
    destruct (isSortable h); [| exact Hal].
    apply (icons_aligned_ext w); [reflexivity | | exact Hal].
    cbn. rewrite isSortable_alter. apply isSortable_reset_sort.
  - destruct (cell_click_fields r k w) as (_ & _ & Hi & _).
    apply (icons_aligned_ext w); [exact Hi | | exact Hal].
    f_equal. apply (headers_step w (ClickCell r k)). discriminate.
  - destruct (pending w) as [| n] eqn:Hp;
      [rewrite settle_idle by exact Hp; exact Hal |].
    destruct out as [data | err].
    + unfold icons_aligned.
      rewrite (sortIcons_settle_resolved data w n Hp), headers_settle.
      rewrite (update_icons_aligned w Hal).
      rewrite <- list_fmap_compose. apply list_fmap_ext. intros _ h _.
      unfold icon_of; cbn. destruct (isSortable h); reflexivity.
    + apply (icons_aligned_ext w);
        [apply sortIcons_settle_rejected | | exact Hal].
      rewrite headers_settle. reflexivity.
  - exact Hal.
Qed.

Lemma icons_aligned_run (es : list Event) (w : Widget) :
  icons_aligned w → icons_aligned (run w es).
Proof.
  revert w; induction es as [| e es IH]; intros w Hal; [exact Hal |].
  apply (IH (step w e)), icons_aligned_step, Hal.
Qed.

(** The class of the next state is never the class of the state. *)
Lemma sort_class_next (h : Header) :
  sort_class (set_sortState (next_sortState (sortState h)) h) ≠ sort_class h.
Proof.
  unfold sort_class, next_sortState; cbn.
  destruct (Z.ltb_spec (sortState h) 1);
    destruct (Z.eqb_spec (sortState h) 1);
    destruct (Z.eqb_spec (sortState h) (-1)); try lia; cbn; discriminate.
Qed.

End Icons.

(** X5.  When a fetch succeeds, every sort icon shows the state of its
    header: the neutral class for 0, the up arrow for 1, the down arrow for
    -1; headers that are not sortable have no icon. *)
Theorem icons_follow_sort_state (o : Options) (s : gmap nat Row)
  (es : list Event) (data : PageData) :
  let w := run (construct o s) es in
  pending w ≠ 0%nat →
  sortIcons (settle (Resolved data) w) = icon_of <$> headers w ∧
  headers (settle (Resolved data) w) = headers w.
Proof.
  intros w Hp. split; [| apply headers_settle].
  assert (Hal : icons_aligned w)
    by apply icons_aligned_run, icons_aligned_construct.
  destruct (pending w) as [| n] eqn:Hn; [congruence |].
  rewrite (sortIcons_settle_resolved data w n Hn).
  apply update_icons_aligned, Hal.
Qed.

Lemma icons_follow_sort_state_witness :
  sortIcons (settle (Resolved people_page)
               (run (construct people_byIndex people_store)
                  [Settle (Rejected "timeout"); ClickSort 1]))
  = [Some "fa fa-sort text-muted"; Some "fa fa-sort-up"].
Proof.
  refine (eq_trans (proj1
    (icons_follow_sort_state people_byIndex people_store
       [Settle (Rejected "timeout"); ClickSort 1] people_page _)) _);
    vm_compute; [lia | reflexivity].
Defined.

(** X6.  The sort icons change only when a fetch succeeds.  When the fetch
    made by a sort button fails, the header keeps its new state and the
    icons stay as they were, so the icon of that header, if it showed the
    state before the click, no longer shows the state of the header. *)
Theorem failed_sort_leaves_stale_icon (w : Widget) (i : nat) (h : Header)
  (error : string) :
  headers w !! i = Some h → isSortable h = true →
  sortIcons w !! i = Some (icon_of h) →
  let w' := settle (Rejected error) (sortBtn_click i w) in
  sortIcons w' = sortIcons w ∧
  headers w' !! i = Some (set_sortState (next_sortState (sortState h)) h) ∧
  sortIcons w' !! i
  ≠ Some (icon_of (set_sortState (next_sortState (sortState h)) h)).
Proof.
  intros Hi Hs Hicon w'.
  assert (Hw' : sortIcons w' = sortIcons w).
  { subst w'. rewrite sortIcons_settle_rejected.
    unfold sortBtn_click. rewrite Hi, Hs. reflexivity. }
  split; [exact Hw' |]. split.
  - subst w'. rewrite headers_settle. apply sortBtn_click_same; assumption.
  - rewrite Hw', Hicon. unfold icon_of. cbn [isSortable set_sortState].
    rewrite Hs. intros Heq. injection Heq as Heq.
    apply String.app_inj in Heq.
    exact (sort_class_next h (eq_sym Heq)).
Qed.

Lemma failed_sort_leaves_stale_icon_witness :
  sortIcons (settle (Rejected "timeout") (sortBtn_click 1 table25wide)) !! 1%nat
  ≠ Some (icon_of (mkHeader "age" "Age" true 1)).
Proof.
  refine (proj2 (proj2
    (failed_sort_leaves_stale_icon table25wide 1
       (mkHeader "age" "Age" true 0) "timeout" _ _ _)));
    vm_compute; reflexivity.
Defined.

(** ** The spinner *)

(** X7.  When no fetch is pending the spinner is hidden: it is never left
    showing after the last fetch has settled.  It is hidden, though, as
    soon as one of several pending fetches settles. *)
Theorem spinner_never_stuck (o : Options) (s : gmap nat Row) (es : list Event) :
  (pending (run (construct o s) es) = 0%nat →
   loadingShown (run (construct o s) es) = false) ∧
  (∀ w out, (2 ≤ pending w)%nat →
            loadingShown (settle out w) = false ∧
            (1 ≤ pending (settle out w))%nat).
Proof.
  split.
  - assert (Hstep : ∀ w e,
      (pending w = 0%nat → loadingShown w = false) →
      pending (step w e) = 0%nat → loadingShown (step w e) = false).
    { intros w e Hw. destruct e as [| | val | i | r k | out | l r];
        unfold step.
      - destruct (leftBtn_click_cases w) as [-> | ->];
          [exact Hw | discriminate].
      - destruct (rightBtn_click_cases w) as (p & _ & [-> | ->]);
          [exact Hw | discriminate].
      - discriminate.
      - unfold sortBtn_click. destruct (headers w !! i) as [h |]; [| exact Hw].
        destruct (isSortable h); [discriminate | exact Hw].
      - destruct (cell_click_fields r k w) as (_ & _ & _ & _ & -> & ->).
        exact Hw.
      - destruct (pending w) as [| n] eqn:Hp.
        + rewrite settle_idle by exact Hp. intros _. apply Hw. reflexivity.
        + intros _. apply (settle_pending out w n Hp).
      - exact Hw. }
    assert (Hrun : ∀ es' w,
      (pending w = 0%nat → loadingShown w = false) →
      pending (run w es') = 0%nat → loadingShown (run w es') = false).
    { induction es' as [| e es' IH]; intros w Hw; [exact Hw |].
      apply (IH (step w e)), Hstep, Hw. }
    apply Hrun. discriminate.
  - intros w out Hp.
    destruct (pending w) as [| n] eqn:Hn; [lia |].
    destruct (settle_pending out w n Hn) as [-> ->].
    split; [reflexivity | lia].
Qed.

Lemma spinner_never_stuck_witness :
  loadingShown (run (construct people_byIndex people_store)
                  [ClickSort 0; Settle (Rejected "timeout");
                   Settle (Resolved people_page)]) = false.
Proof.
  refine (proj1
    (spinner_never_stuck people_byIndex people_store
       [ClickSort 0; Settle (Rejected "timeout");
        Settle (Resolved people_page)]) _).
  vm_compute. reflexivity.
Defined.

(** ** The body and the row arrays *)

Section Body.

Variable decs : list Decoration.

Lemma tableRow_returned (r : Row) (markup : string) :
  tableRow r = Done markup → markup = tableRow_markup r.
Proof.
  unfold tableRow.
  destruct (props r !! "map"), (props r !! "constructor"); congruence.
Qed.

Lemma tableRow_renders (r : Row) :
  row_renders r → tableRow r = Done (tableRow_markup r).
Proof. unfold tableRow. intros [-> ->]. reflexivity. Qed.

(** One pass of the loop that does not throw appends the rendering of the
    array as decorated. *)
Lemma setData_row_render (st : gmap nat Row * list RenderedRow) (l : nat) :
  (setData_row decs st l).2 = None →
  (setData_row decs st l).1 =
  match st.1 !! l with
  | Some r =>
      (<[l := foldl decorate_step r decs]> st.1,
       (st.2 ++ [render_row decs (foldl decorate_step r decs)])%list)
  | None => st
  end.
Proof.
  unfold setData_row. destruct (st.1 !! l) as [r |]; [| reflexivity].
  destruct (decorate_all r decs) as [r' thrown] eqn:Hall.
  destruct thrown as [e |]; [discriminate |].
  assert (Hno : Forall (fun d => rule_throws d = false) decs).
  { apply (decorate_all_returned r). rewrite Hall. reflexivity. }
  rewrite (decorate_all_returns r decs Hno) in Hall. injection Hall as <-.
  destruct (tableRow _) as [markup | e] eqn:Hrow; [| discriminate].
  intros _. rewrite (tableRow_returned _ _ Hrow). reflexivity.
Qed.

Lemma omap_ext_elem {A B : Type} (f g : A → option B) (l : list A) :
  (∀ x, x ∈ l → f x = g x) → omap f l = omap g l.
Proof.
  induction l as [| x l IH]; intros Hfg; [reflexivity |].
  cbn. rewrite (Hfg x) by (apply elem_of_cons; auto).
  rewrite IH by (intros y Hy; apply Hfg, elem_of_cons; auto). reflexivity.
Qed.

(** With each array listed once, the body gets one row for each array
    that is there, rendered from the array as decorated. *)
Lemma setData_rows_body (data : list nat)
  (st : gmap nat Row * list RenderedRow) :
  (setData_rows decs st data).2 = None → NoDup data →
  (setData_rows decs st data).1.2 =
  (st.2 ++ omap (fun l => (fun r => render_row decs
                                      (foldl decorate_step r decs))
                            <$> st.1 !! l) data)%list.
Proof.
  revert st; induction data as [| x data IH]; intros st Hret Hnd.
  - cbn. rewrite app_nil_r. reflexivity.
  - apply NoDup_cons in Hnd as [Hx Hnd]. cbn in Hret |- *.
    pose proof (setData_row_render st x) as Hrow.
    destruct (setData_row decs st x) as [st' [e |]]; [discriminate |].
    rewrite (IH st' Hret Hnd). cbn [fst snd] in Hrow.
    rewrite (Hrow eq_refl).
    destruct (st.1 !! x) as [r |] eqn:Hr; cbn.
    + rewrite <- app_assoc. cbn. do 2 f_equal.
      apply omap_ext_elem. intros l Hl.
      rewrite lookup_insert_ne by (intros ->; contradiction). reflexivity.
    + reflexivity.
Qed.

Lemma setData_rows_length (data : list nat)
  (st : gmap nat Row * list RenderedRow) :
  (setData_rows decs st data).2 = None →
  Forall (fun l => is_Some (st.1 !! l)) data →
  length (setData_rows decs st data).1.2 = length st.2 + length data.
Proof.
  revert st; induction data as [| x data IH]; intros st Hret Hall.
  - cbn. lia.
  - apply Forall_cons in Hall as [[r Hr] Hall]. cbn in Hret |- *.
    pose proof (setData_row_render st x) as Hrow.
    destruct (setData_row decs st x) as [st' [e |]]; [discriminate |].
    cbn [fst snd] in Hrow. specialize (Hrow eq_refl). rewrite Hr in Hrow.
    rewrite (IH st' Hret).
    + rewrite Hrow. cbn. rewrite length_app. cbn. lia.
    + eapply Forall_impl; [exact Hall |]. intros l Hl. cbn in Hl.
      rewrite Hrow. cbn.
      destruct (decide (x = l)) as [-> | Hne].
      * rewrite lookup_insert_eq. eexists; reflexivity.
      * rewrite lookup_insert_ne by exact Hne. exact Hl.
Qed.

(** When no rule throws and every array renders, [setData] returns. *)
Lemma setData_rows_returns (data : list nat)
  (st : gmap nat Row * list RenderedRow) :
  Forall (fun d => rule_throws d = false) decs →
  (∀ d, d ∈ decs → prop_key (col d) ≠ PNamed "map" ∧
                   prop_key (col d) ≠ PNamed "constructor") →
  (∀ l r, st.1 !! l = Some r → row_renders r) →
  (setData_rows decs st data).2 = None.
Proof.
  intros Hno Hkeys.
  assert (Hstep : ∀ r d, d ∈ decs → row_renders r →
                         row_renders (decorate_step r d)).
  { intros r d Hd [Hm Hc]. destruct (Hkeys d Hd) as [Hkm Hkc].
    unfold decorate_step, decorate, row_set.
    destruct (prop_key (col d)) as [i | | | s];
      destruct (String.eqb (dtype d) "link");
      try destruct (String.eqb (dtype d) "button");
      try destruct (i <? length (elems r))%nat;
      try (split; assumption);
      unfold row_renders; cbn [props];
      rewrite !lookup_insert_ne by congruence; split; assumption. }
  assert (Hfold : ∀ ds r, Forall (fun d => d ∈ decs) ds → row_renders r →
                          row_renders (foldl decorate_step r ds)).
  { induction ds as [| d ds IH]; intros r Hsub Hr; [exact Hr |].
    apply Forall_cons in Hsub as [Hd Hsub].
    cbn. apply IH; [exact Hsub |]. apply Hstep; [exact Hd | exact Hr]. }
  revert st; induction data as [| x data IH]; intros st Hst; [reflexivity |].
  cbn. unfold setData_row at 1.
  destruct (st.1 !! x) as [r |] eqn:Hx; [| apply IH, Hst].
  rewrite (decorate_all_returns r decs Hno).
  assert (Hr' : row_renders (foldl decorate_step r decs))
    by (apply Hfold; [apply Forall_forall; auto | exact (Hst x r Hx)]).
  rewrite (tableRow_renders _ Hr'). apply IH. cbn [fst].
  intros l r0. destruct (decide (x = l)) as [-> | Hne].
  - rewrite lookup_insert_eq. intros [= <-]. exact Hr'.
  - rewrite lookup_insert_ne by exact Hne. apply Hst.
Qed.

End Body.

(** A [col] within the model names nothing an array inherits. *)
Lemma key_word_own (k : ColKey) (n : string) :
  key_word k = true → prop_key k = PNamed n → array_inherited n = None.
Proof.
  destruct k as [i | s]; cbn [prop_key key_word]; [discriminate |].
  destruct (index_of_name s); [discriminate |].
  destruct (String.eqb s "length"); [discriminate |].
  destruct (String.eqb s "__proto__"); [discriminate |].
  intros H [= <-]. destruct s as [| c r]; [discriminate |].
  apply andb_true_iff in H as [_ H].
  destruct (array_inherited (String c r)); [discriminate | reflexivity].
Qed.

(** [setData] returns, and [update] with it, when no rule of type link or
    button is for the length and no row array has a property of its own
    called map or constructor. *)
Lemma update_returns (data : PageData) (w : Widget) :
  rules_are_words (decoration w) →
  Forall (fun d => rule_throws d = false) (decoration w) →
  (∀ l r, rows w !! l = Some r → row_renders r) →
  (setData (d_rows data) w).2 = None ∧ (update data w).2 = None.
Proof.
  intros Hwords Hno Hrows.
  assert (Hkeys : ∀ d, d ∈ decoration w →
            prop_key (col d) ≠ PNamed "map" ∧
            prop_key (col d) ≠ PNamed "constructor").
  { intros d Hd. unfold rules_are_words in Hwords.
    rewrite Forall_forall in Hwords. specialize (Hwords d Hd).
    split; intros E; apply (key_word_own _ _ Hwords) in E;
      vm_compute in E; discriminate. }
  split.
  - destruct (setData_returned (d_rows data) w) as (-> & _).
    apply setData_rows_returns; assumption.
  - destruct (update_state data w) as [-> _].
    destruct (setData_returned (d_rows data)
                (set_sortIcons (update_icons w) w)) as (-> & _).
    apply setData_rows_returns; assumption.
Qed.

(** X8.  When the [col] of every decoration rule is a position or a word
    that names nothing an array inherits, and [setData] returns without
    throwing, it has replaced the body, whatever it held, by one row for
    each array of the data, in order.  When each
    array is listed once, each row is built from the markup [tableRow]
    makes of what its array holds afterwards: the body shows the decorated
    arrays, not the arrays as the caller made them. *)
Theorem body_shows_decorated_arrays (w : Widget) (data : list nat) :
  rules_are_words (decoration w) →
  (setData data w).2 = None →
  (Forall (fun l => is_Some (rows w !! l)) data →
   length (tBody (setData data w).1) = length data) ∧
  (NoDup data →
   tr_html <$> tBody (setData data w).1 =
   omap (fun l => tableRow_markup <$> rows (setData data w).1 !! l) data).
Proof.
  intros _ Hret.
  destruct (setData_returned data w) as (Hthrown & Hrows & Hbody).
  rewrite Hthrown in Hret. rewrite Hrows, Hbody. split.
  - intros Hall.
    rewrite (setData_rows_length _ data (rows w, []) Hret Hall). reflexivity.
  - intros Hnd.
    rewrite (setData_rows_body _ data (rows w, []) Hret Hnd).
    cbn [fst snd app].
    assert (Hl : ∀ l, l ∈ data →
      (setData_rows (decoration w) (rows w, []) data).1.1 !! l =
      (fun r => foldl decorate_step r (decoration w)) <$> rows w !! l).
    { intros l Hl. rewrite (setData_rows_lookup _ data _ l Hret).
      rewrite (occurrences_NoDup l data Hnd Hl). cbn.
      rewrite app_nil_r. reflexivity. }
    clear Hret Hthrown Hrows Hbody.
    generalize dependent (setData_rows (decoration w) (rows w, []) data).1.1.
    intros final. generalize (rows w) (decoration w). intros store decs.
    induction data as [| x data IH]; intros Hl; [reflexivity |].
    apply NoDup_cons in Hnd as [_ Hnd].
    cbn [omap list_omap].
    rewrite (Hl x) by (apply elem_of_cons; auto).
    destruct (store !! x) as [r |]; cbn.
    + f_equal. apply IH; [exact Hnd |].
      intros l Hin. apply Hl, elem_of_cons. auto.
    + apply IH; [exact Hnd |].
      intros l Hin. apply Hl, elem_of_cons. auto.
Qed.

Lemma body_shows_decorated_arrays_witness :
  length (tBody (setData [1; 0]%nat
                   (construct people_byIndex people_store)).1) = 2%nat ∧
  tr_html <$> tBody (setData [1; 0]%nat
                       (construct people_byIndex people_store)).1 =
  omap (fun l => tableRow_markup <$>
                 rows (setData [1; 0]%nat
                         (construct people_byIndex people_store)).1 !! l)
    [1; 0]%nat.
Proof.
  split.
  - refine (proj1 (body_shows_decorated_arrays
      (construct people_byIndex people_store) [1; 0]%nat _ _) _).
    + apply (bool_decide_unpack _). vm_compute. exact I.
    + vm_compute. reflexivity.
    + apply (bool_decide_unpack _). vm_compute. exact I.
  - refine (proj2 (body_shows_decorated_arrays
      (construct people_byIndex people_store) [1; 0]%nat _ _) _).
    + apply (bool_decide_unpack _). vm_compute. exact I.
    + vm_compute. reflexivity.
    + apply (bool_decide_unpack _). vm_compute. exact I.
Defined.

(** ** Clicks on decorated cells *)

Section Clicks.

Lemma plain_text_no_lt (t : string) : plain_text t = true → no_lt t = true.
Proof.
  induction t as [| c t IH]; [reflexivity |]. cbn [plain_text no_lt].
  intros [Hc Ht]%andb_true_iff. rewrite (IH Ht), andb_true_r.
  unfold plain_char in Hc.
  apply andb_true_iff in Hc as [_ Hc]. apply negb_true_iff in Hc.
  apply negb_true_iff. apply Ascii.eqb_neq. intros ->.
  vm_compute in Hc. discriminate.
Qed.

Lemma elem_text_plain (t tag : string) :
  no_lt t = true →
  elem_text 0 false (t +:+ String "<" (String "/" tag)) = t.
Proof.
  induction t as [| c t IH]; intros Ht; [reflexivity |].
  cbn in Ht. apply andb_true_iff in Ht as [Hc Ht].
  change (elem_text 0 false (String c (t +:+ String "<" (String "/" tag)))
          = String c t).
  cbn. apply negb_true_iff in Hc. rewrite Hc. f_equal. exact (IH Ht).
Qed.

(** The first child element of a decorated cell is the link or the button,
    and its text is the text that was wrapped. *)
Lemma first_child_text_wrap (dec : Decoration) (t : string) :
  wraps dec → no_lt t = true → first_child_text (wrap dec t) = Some t.
Proof.
  unfold wraps, wrap. intros [H | H] Ht; rewrite H.
  - change (("link" =? "link")%string) with true. cbv iota.
    change (link_open +:+ t +:+ link_close) with
      (String "<" (String "a"
         ((" style=" +:+ dquote +:+ "cursor:pointer" +:+ dquote) +:+
          String ">" (t +:+ String "<" (String "/" "a>"))))).
    simpl. rewrite elem_text_plain by exact Ht. reflexivity.
  - change (("button" =? "link")%string) with false.
    change (("button" =? "button")%string) with true. cbv iota.
    change (button_open +:+ t +:+ button_close) with
      (String "<" (String "b"
         (("utton class=" +:+ dquote +:+ "btn btn-default btn-sm" +:+ dquote)
          +:+ String ">" (t +:+ String "<" (String "/" "button>"))))).
    simpl. rewrite elem_text_plain by exact Ht. reflexivity.
Qed.

Lemma omap_id_Some {A : Type} (l : list A) : omap id (Some <$> l) = l.
Proof. induction l as [| x l IH]; [reflexivity |]. cbn. f_equal. exact IH. Qed.

Lemma omap_id_holes {A : Type} (n : nat) :
  omap id (replicate n (@None A)) = [].
Proof. induction n as [| n IH]; [reflexivity | exact IH]. Qed.

(** A rule for a cell the row has. *)
Lemma decorate_cell (cells : list string) (pr : gmap string string)
  (dec : Decoration) (i : nat) (t : string) :
  col dec = ColIdx i → wraps dec → cells !! i = Some t →
  decorate (mkRow (Some <$> cells) pr) dec =
  Done (mkRow (Some <$> <[i := wrap dec t]> cells) pr).
Proof.
  intros Hcol Hw Hi. rewrite decorate_wraps by exact Hw. rewrite Hcol.
  unfold row_set, row_get. cbn [prop_key elems props].
  rewrite length_fmap, list_lookup_fmap, Hi.
  apply lookup_lt_Some in Hi.
  destruct (Nat.ltb_spec i (length cells)); [| lia].
  rewrite list_fmap_insert. reflexivity.
Qed.

(** A rule for a position past the end of the row. *)
Lemma decorate_past_end (cells : list string) (pr : gmap string string)
  (dec : Decoration) (i : nat) :
  col dec = ColIdx i → wraps dec → (length cells ≤ i)%nat →
  decorate (mkRow (Some <$> cells) pr) dec =
  Done (mkRow ((Some <$> cells) ++ replicate (i - length cells) None ++
               [Some (wrap dec "undefined")]) pr).
Proof.
  intros Hcol Hw Hi. rewrite decorate_wraps by exact Hw. rewrite Hcol.
  unfold row_set, row_get. cbn [prop_key elems props].
  rewrite length_fmap, list_lookup_fmap.
  rewrite (lookup_ge_None_2 cells i) by exact Hi.
  destruct (Nat.ltb_spec i (length cells)); [lia | reflexivity].
Qed.

End Clicks.

(** X9.  With one rule of type link or button for position [i], carrying a
    callback [f], and a row array that has no property of its own called
    map or constructor and whose cells are plain text, cell [i] holding
    the text [t]: [setData] returns, the cell then holds the markup around
    [t], a click on its link or button calls [f] once, with [t], and a
    click in another cell of the row calls nothing. *)
Theorem decorated_click_passes_text (w : Widget) (l i : nat)
  (cells : list string) (pr : gmap string string) (ty f t : string) :
  let dec := mkDecoration (ColIdx i) ty (Some f) in
  decoration w = [dec] → wraps dec → key_word (ColIdx i) = true →
  rows w !! l = Some (mkRow (Some <$> cells) pr) →
  row_renders (mkRow (Some <$> cells) pr) →
  plain_cells cells → cells !! i = Some t →
  (setData [l] w).2 = None ∧
  tBody (setData [l] w).1 =
    [mkRenderedRow
       (tableRow_markup (mkRow (Some <$> <[i := wrap dec t]> cells) pr))
       (<[i := wrap dec t]> cells) [(i, f)]] ∧
  clicked (cell_click 0 i (setData [l] w).1) = (clicked w ++ [(f, t)])%list ∧
  (∀ k, k ≠ i → clicked (cell_click 0 k (setData [l] w).1) = clicked w).
Proof.
  intros dec Hdec Hw _ Hl Hrenders Hplain Hi.
  assert (Ht : no_lt t = true).
  { apply plain_text_no_lt. unfold plain_cells in Hplain.
    rewrite Forall_forall in Hplain. apply Hplain.
    apply (list_elem_of_lookup_2 _ i). exact Hi. }
  assert (Hlt : (i < length cells)%nat)
    by (apply lookup_lt_Some in Hi; exact Hi).
  assert (Hcell : <[i := wrap dec t]> cells !! i = Some (wrap dec t))
    by (apply list_lookup_insert_eq; exact Hlt).
  assert (Hset : setData [l] w =
    (set_tBody
       [mkRenderedRow
          (tableRow_markup (mkRow (Some <$> <[i := wrap dec t]> cells) pr))
          (<[i := wrap dec t]> cells) [(i, f)]]
       (set_rows (<[l := mkRow (Some <$> <[i := wrap dec t]> cells) pr]>
                    (rows w)) w), None)).
  { unfold setData. cbn [setData_rows]. unfold setData_row. cbn [fst snd].
    rewrite Hl, Hdec. cbn [decorate_all].
    rewrite (decorate_cell cells pr dec i t eq_refl Hw Hi).
    rewrite tableRow_renders by exact Hrenders.
    unfold tableRow_cells. cbn [elems].
    rewrite omap_id_Some. cbn [app].
    unfold bind_clicks, find_clickElem.
    cbn [flat_map clickFunction col dec prop_key].
    rewrite Hcell. cbn [mbind option_bind].
    rewrite (first_child_text_wrap dec t Hw Ht). reflexivity. }
  rewrite Hset. cbn [fst snd].
  split; [reflexivity |]. split; [reflexivity |].
  split.
  - unfold cell_click. cbn [tBody set_tBody lookup list_lookup tr_cells].
    rewrite Hcell. cbn [mbind option_bind].
    rewrite (first_child_text_wrap dec t Hw Ht).
    cbn [clicked set_clicked set_tBody set_rows tr_handlers].
    rewrite filter_cons, filter_nil. cbn [fst].
    destruct (decide (i = i)) as [_ | Hne]; [reflexivity | congruence].
  - intros k Hk. unfold cell_click.
    cbn [tBody set_tBody lookup list_lookup tr_cells].
    destruct (<[i := wrap dec t]> cells !! k ≫= first_child_text);
      [| reflexivity].
    cbn [clicked set_clicked set_tBody set_rows tr_handlers].
    rewrite filter_cons, filter_nil. cbn [fst].
    destruct (decide (i = k)) as [Heq | _]; [congruence |].
    cbn. apply app_nil_r.
Qed.

Lemma decorated_click_passes_text_witness :
  clicked (cell_click 0 0
             (setData [1%nat] (construct people_byIndex people_store)).1)
  = [("f", "Bob")].
Proof.
  refine (proj1 (proj2 (proj2
    (decorated_click_passes_text (construct people_byIndex people_store)
       1 0 ["Bob"; "41"] ∅ "link" "f" "Bob" _ _ _ _ _ _ _)))).
  - reflexivity.
  - left. reflexivity.
  - vm_compute. reflexivity.
  - vm_compute. reflexivity.
  - split; vm_compute; reflexivity.
  - apply (bool_decide_unpack _). vm_compute. exact I.
  - reflexivity.
Defined.

(** X10.  A rule of type link or button for a position past the end of a
    row of plain text does not fail: the array is extended, with holes up
    to that position, by the markup around "undefined", which is rendered
    as one more cell after the cells of the row.  Its handler is bound to
    that cell only when the position is the first one past the end;
    further out no handler is bound. *)
Theorem rule_past_row_end (cells : list string) (pr : gmap string string)
  (i : nat) (ty : string) (f : option string) :
  let dec := mkDecoration (ColIdx i) ty f in
  wraps dec → key_word (ColIdx i) = true → (length cells ≤ i)%nat →
  plain_cells cells → row_renders (mkRow (Some <$> cells) pr) →
  ∃ r',
    decorate (mkRow (Some <$> cells) pr) dec = Done r' ∧
    elems r' = ((Some <$> cells) ++ replicate (i - length cells) None ++
                [Some (wrap dec "undefined")])%list ∧
    tableRow r' = Done (tableRow_markup r') ∧
    tableRow_cells r' = (cells ++ [wrap dec "undefined"])%list ∧
    ((length cells < i)%nat → bind_clicks (tableRow_cells r') [dec] = []) ∧
    (length cells = i →
     bind_clicks (tableRow_cells r') [dec] =
     match f with Some g => [(i, g)] | None => [] end).
Proof.
  intros dec Hw _ Hi _ Hrenders.
  eexists. split; [exact (decorate_past_end cells pr dec i eq_refl Hw Hi) |].
  assert (Hcells : tableRow_cells
            (mkRow ((Some <$> cells) ++ replicate (i - length cells) None ++
                    [Some (wrap dec "undefined")]) pr)
          = (cells ++ [wrap dec "undefined"])%list).
  { unfold tableRow_cells; cbn [elems].
    rewrite !omap_app, omap_id_Some, omap_id_holes. reflexivity. }
  split; [reflexivity |].
  split; [apply tableRow_renders; exact Hrenders |].
  split; [exact Hcells |].
  rewrite Hcells. unfold bind_clicks, find_clickElem.
  cbn [flat_map clickFunction col dec prop_key]. split.
  - intros Hlt.
    rewrite (lookup_ge_None_2 (cells ++ [wrap dec "undefined"]) i)
      by (rewrite length_app; cbn; lia).
    destruct f; reflexivity.
  - intros <-.
    rewrite lookup_app_r by lia. rewrite Nat.sub_diag. cbn [lookup list_lookup].
    cbn [mbind option_bind].
    rewrite (first_child_text_wrap dec "undefined" Hw eq_refl).
    destruct f; reflexivity.
Qed.

Lemma rule_past_row_end_witness :
  ∃ r',
    decorate (mkRow (Some <$> ["Alice"; "30"]) ∅)
      (mkDecoration (ColIdx 4) "button" (Some "f")) = Done r' ∧
    tableRow_cells r'
    = ["Alice"; "30"; button_open +:+ "undefined" +:+ button_close] ∧
    bind_clicks (tableRow_cells r')
      [mkDecoration (ColIdx 4) "button" (Some "f")] = [].
Proof.
  destruct (rule_past_row_end ["Alice"; "30"] ∅ 4 "button" (Some "f"))
    as (r' & Hdec & _ & _ & Hcells & Hfar & _).
  - right. reflexivity.
  - vm_compute. reflexivity.
  - vm_compute. lia.
  - apply (bool_decide_unpack _). vm_compute. exact I.
  - split; vm_compute; reflexivity.
  - exists r'. split; [exact Hdec |]. split; [exact Hcells |].
    apply Hfar. vm_compute. lia.
Defined.

(** * Properties of the cell patches *)

(** ** The kind of a cell *)



(** The kinds of the cells KBase makes, and of a cell whose metadata is
    [null]. *)
Example cellType_examples :
  cellType (kb_cell "function_input") = Str "method" ∧
  cellType (kb_cell "kb_app") = Str "app" ∧
  cellType (kb_cell "function_output") = Str "output" ∧
  cellType (kb_cell "markdown") = Str "unknown" ∧
  cellType (mkKbCell (Some 2%Z) (metadata (kb_cell "kb_app"))) = Undefined ∧
  cellType (mkKbCell None (VObj ∅)) = Undefined ∧
  cellType (mkKbCell None VNull) = Str "unknown".
Proof. repeat split; vm_compute; reflexivity. Qed.

(** ** Titles *)

Section Titles.

Lemma substr0_length (n : nat) (s : string) :
  (String.length (substr0 n s) ≤ n)%nat ∧
  (String.length (substr0 n s) ≤ String.length s)%nat.
Proof.
  revert s; induction n as [| n IH]; intros [| x r]; cbn; try lia.
  destruct (IH r). lia.
Qed.

Lemma substr0_prefix (n : nat) (s : string) :
  ∃ rest, s = substr0 n s +:+ rest.
Proof.
  revert s; induction n as [| n IH]; intros s.
  - exists s. destruct s; reflexivity.
  - destruct s as [| x r]; [exists EmptyString; reflexivity |].
    destruct (IH r) as [rest Hr]. exists rest.
    change (String x r = String x (substr0 n r +:+ rest)). f_equal. exact Hr.
Qed.

(** No [c] before the first [c]. *)
Lemma indexOf_cut (c : ascii) (s : string) (i : nat) :
  indexOf c s = Some i → indexOf c (substr0 i s) = None.
Proof.
  revert i; induction s as [| x r IH]; intros i; cbn; [discriminate |].
  destruct (Ascii.eqb x c) eqn:Hx; [intros [= <-]; reflexivity |].
  destruct (indexOf c r) as [j |]; [| discriminate].
  intros [= <-]. cbn. rewrite Hx, (IH j eq_refl). reflexivity.
Qed.

(** A prefix of a text without [c] is without [c]. *)
Lemma indexOf_substr0_None (c : ascii) (n : nat) (s : string) :
  indexOf c s = None → indexOf c (substr0 n s) = None.
Proof.
  revert s; induction n as [| n IH]; intros [| x r]; cbn; try reflexivity.
  destruct (Ascii.eqb x c); [discriminate |].
  destruct (indexOf c r) eqn:Hr; [discriminate |].
  intros _. rewrite (IH r Hr). reflexivity.
Qed.

Lemma cut_at_clean (c : ascii) (s : string) : indexOf c (cut_at c s) = None.
Proof.
  unfold cut_at. destruct (indexOf c s) as [i |] eqn:Hi;
    [apply indexOf_cut, Hi | exact Hi].
Qed.

Lemma cut_at_keeps_clean (c c' : ascii) (s : string) :
  indexOf c' s = None → indexOf c' (cut_at c s) = None.
Proof.
  unfold cut_at. destruct (indexOf c s); [apply indexOf_substr0_None | auto].
Qed.

Lemma cut_at_prefix (c : ascii) (s : string) :
  ∃ rest, s = cut_at c s +:+ rest.
Proof.
  unfold cut_at. destruct (indexOf c s);
    [apply substr0_prefix | exists EmptyString; symmetry; apply string_app_nil_r].
Qed.

Lemma cut_at_length (c : ascii) (s : string) :
  (String.length (cut_at c s) ≤ String.length s)%nat.
Proof.
  unfold cut_at. destruct (indexOf c s); [apply substr0_length | lia].
Qed.

Lemma cut_at_id (c : ascii) (s : string) :
  indexOf c s = None → cut_at c s = s.
Proof. unfold cut_at. intros ->. reflexivity. Qed.

End Titles.

(** X12.  The title stored for a markdown cell is the placeholder when the
    cell has no text.  Otherwise it is a prefix of the text, or of its
    first 50 characters followed by "..." when the text is longer than
    that; it has at most 53 characters, and holds neither a newline nor a
    pilcrow sign.  A text of at most 50 characters without newline and
    pilcrow is its own title. *)
Theorem markdown_title_shape (t : string) :
  markdown_title None = empty_markdown_title ∧
  markdown_title (Some EmptyString) = empty_markdown_title ∧
  (t ≠ EmptyString →
   (∃ rest,
      (if (50 <? String.length t)%nat then substr0 50 t +:+ "..." else t)
      = markdown_title (Some t) +:+ rest) ∧
   (String.length (markdown_title (Some t)) ≤ 53)%nat ∧
   indexOf newline (markdown_title (Some t)) = None ∧
   indexOf pilcrow (markdown_title (Some t)) = None ∧
   ((String.length t ≤ 50)%nat → indexOf newline t = None →
    indexOf pilcrow t = None → markdown_title (Some t) = t)).
Proof.
  split; [reflexivity |]. split; [reflexivity |].
  intros Ht. unfold markdown_title, truthy_str.
  destruct (String.eqb_spec t "") as [-> | _]; [congruence |].
  cbn [negb]. change (default EmptyString (Some t)) with t. cbv zeta.
  set (t1 := if (50 <? String.length t)%nat then substr0 50 t +:+ "..." else t).
  split; [| split; [| split; [| split]]].
  - destruct (cut_at_prefix pilcrow t1) as [r1 H1].
    destruct (cut_at_prefix newline (cut_at pilcrow t1)) as [r2 H2].
    exists (r2 +:+ r1).
    rewrite <- (string_app_assoc _ r2 r1), <- H2. exact H1.
  - pose proof (cut_at_length newline (cut_at pilcrow t1)).
    pose proof (cut_at_length pilcrow t1).
    assert (String.length t1 ≤ 53)%nat; [| lia].
    subst t1. destruct (Nat.ltb_spec 50 (String.length t)); [| lia].
    rewrite string_app_length. pose proof (proj1 (substr0_length 50 t)).
    change (String.length "...") with 3. lia.
  - apply cut_at_clean.
  - apply cut_at_keeps_clean, cut_at_clean.
  - intros Hlen Hn Hp. subst t1.
    destruct (Nat.ltb_spec 50 (String.length t)); [lia |].
    rewrite (cut_at_id pilcrow t Hp). apply cut_at_id, Hn.
Qed.

Lemma markdown_title_shape_witness :
  indexOf newline
    (markdown_title (Some ("Results" +:+ String pilcrow
                             (String newline "and more"))))
  = None ∧
  markdown_title (Some "Results") = "Results".
Proof.
  split.
  - refine (proj1 (proj2 (proj2 (proj2 (proj2
      (markdown_title_shape ("Results" +:+ String pilcrow
                               (String newline "and more")))) _))));
      discriminate.
  - refine (proj2 (proj2 (proj2 (proj2 (proj2 (proj2
      (markdown_title_shape "Results")) _)))) _ _ _);
      first [discriminate | reflexivity | vm_compute; lia].
Defined.

Section CodeTitles.

Lemma ltrim_spaces (ws t : string) :
  all_space ws = true → starts_with_space t = false →
  ltrim (ws +:+ t) = t.
Proof.
  induction ws as [| c ws IH]; intros Hws Ht.
  - change (ltrim t = t). destruct t as [| x r]; [reflexivity |].
    cbn in *. rewrite Ht. reflexivity.
  - cbn in Hws. apply andb_true_iff in Hws as [Hc Hws].
    change (ltrim (String c (ws +:+ t)) = t). cbn. rewrite Hc.
    exact (IH Hws Ht).
Qed.

Lemma drop_dots_hash (dots rest : string) :
  drop_dots dots = EmptyString →
  drop_dots (dots +:+ String "#" rest) = String "#" rest.
Proof.
  induction dots as [| c dots IH]; intros Hd; [reflexivity |].
  change (drop_dots (String c (dots +:+ String "#" rest)) = String "#" rest).
  cbn in *. destruct (Ascii.eqb c "."); [exact (IH Hd) | discriminate].
Qed.

Lemma code_title_first (lines : list string) (t : string) :
  code_title lines = Some t ↔
  ∃ before line after,
    lines = (before ++ line :: after)%list ∧
    Forall (fun l => commentRe_exec l = None) before ∧
    commentRe_exec line = Some t.
Proof.
  induction lines as [| l lines IH]; cbn.
  - split; [discriminate |]. intros (b & x & a & H & _).
    destruct b; discriminate.
  - destruct (commentRe_exec l) as [u |] eqn:Hl.
    + split.
      * intros [= <-]. exists [], l, lines. repeat split; auto.
      * intros (b & x & a & H & Hb & Hx). destruct b as [| y b]; cbn in H.
        -- injection H as <- _. congruence.
        -- injection H as <- _. apply Forall_cons in Hb as [Hy _]. congruence.
    + rewrite IH. split.
      * intros (b & x & a & -> & Hb & Hx). exists (l :: b), x, a.
        repeat split; auto.
      * intros (b & x & a & H & Hb & Hx). destruct b as [| y b]; cbn in H.
        -- injection H as <- _. congruence.
        -- injection H as _ ->. apply Forall_cons in Hb as [_ Hb].
           exists b, x, a. auto.
Qed.

End CodeTitles.

(** X13.  The title of a code cell comes from the first line that is a
    comment from its start: dots, [#], whitespace, then the title.  The
    title has no whitespace at its start and no line terminator.  A line
    that starts with any other character, such as an indented comment or
    code followed by a comment, gives no title, and without a matching
    line nothing is stored. *)
Theorem code_title_first_comment (lines : list string) :
  (∀ t, code_title lines = Some t ↔
        ∃ before line after,
          lines = (before ++ line :: after)%list ∧
          Forall (fun l => commentRe_exec l = None) before ∧
          commentRe_exec line = Some t) ∧
  (∀ t, code_title lines = Some t →
        starts_with_space t = false ∧ no_terminator t = true) ∧
  (∀ dots ws t,
     drop_dots dots = EmptyString → all_space ws = true →
     starts_with_space t = false → no_terminator t = true →
     commentRe_exec (dots +:+ String "#" (ws +:+ t)) = Some t) ∧
  (∀ c rest, c ≠ "."%char → c ≠ "#"%char →
             commentRe_exec (String c rest) = None).
Proof.
  split; [intros t; apply code_title_first |].
  split; [| split].
  - intros t Ht. apply code_title_first in Ht as (_ & line & _ & _ & _ & Hx).
    unfold commentRe_exec in Hx.
    destruct (drop_dots line) as [| c r]; [discriminate |].
    destruct (Ascii.eqb c "#"); [| discriminate].
    destruct (no_terminator (ltrim r)) eqn:Hnt; [| discriminate].
    injection Hx as <-. split; [apply ltrim_starts | exact Hnt].
  - intros dots ws t Hd Hws Ht Hnt. unfold commentRe_exec.
    rewrite (drop_dots_hash dots (ws +:+ t) Hd).
    cbn. rewrite (ltrim_spaces ws t Hws Ht), Hnt. reflexivity.
  - intros c rest Hdot Hhash. unfold commentRe_exec. cbn.
    apply Ascii.eqb_neq in Hdot, Hhash. rewrite Hdot, Hhash. reflexivity.
Qed.

Lemma code_title_first_comment_witness :
  commentRe_exec (".." +:+ String "#" ("  " +:+ "load the data"))
  = Some "load the data" ∧
  commentRe_exec (String " " "# indented") = None.
Proof.
  split.
  - refine (proj1 (proj2 (proj2 (code_title_first_comment [])))
              ".." "  " "load the data" _ _ _ _); reflexivity.
  - refine (proj2 (proj2 (proj2 (code_title_first_comment [])))
              " "%char "# indented" _ _); discriminate.
Defined.

(** ** Minimized and maximized cells *)

Section MinMax.

Lemma addClass_all (c : string) (els : list (gset string)) :
  Forall (fun e => c ∈ e) (addClass c els).
Proof.
  unfold addClass. apply Forall_fmap, Forall_forall. intros e _. cbn.
  apply elem_of_union. left. apply elem_of_singleton. reflexivity.
Qed.

Lemma removeClass_none (c : string) (els : list (gset string)) :
  Forall (fun e => c ∉ e) (removeClass c els).
Proof.
  unfold removeClass. apply Forall_fmap, Forall_forall. intros e _. cbn.
  intros Hin. apply elem_of_difference in Hin as [_ Hin].
  apply Hin, elem_of_singleton. reflexivity.
Qed.

Lemma minimize_parts (c : Cell) :
  Forall (fun e => "hidden" ∈ e) (minmax_parts (minimize c)) ∧
  toggleData (minimize c) = toggleData c ∧ kind (minimize c) = kind c.
Proof.
  unfold minmax_parts, minimize. destruct (kind c) eqn:Hk; cbn;
    (split; [apply Forall_app; split; apply addClass_all | auto]).
Qed.

Lemma maximize_parts (c : Cell) :
  Forall (fun e => "hidden" ∉ e) (minmax_parts (maximize c)) ∧
  toggleData (maximize c) = toggleData c ∧ kind (maximize c) = kind c.
Proof.
  unfold minmax_parts, maximize. destruct (kind c) eqn:Hk; cbn;
    (split; [apply Forall_app; split; apply removeClass_none | auto]).
Qed.

(** With data on the node, [renderMinMax] does not look at the metadata. *)
Lemma renderMinMax_data (meta : option string) (c : Cell) :
  truthy_str (toggleData c) = true →
  renderMinMax meta c = renderMinMax None c.
Proof.
  intros Hd. unfold renderMinMax. rewrite Hd. cbn.
  destruct (truthy_str meta); reflexivity.
Qed.

Lemma current_mode_data (c : Cell) (m : string) :
  m ≠ EmptyString → current_mode (set_toggleData (Some m) c) = m.
Proof.
  intros Hm. unfold current_mode; cbn.
  destruct (String.eqb_spec m ""); [congruence | reflexivity].
Qed.

Lemma toggleMinMax_max (meta : option string) (c : Cell) :
  current_mode c = "maximized" →
  toggleData (toggleMinMax meta c) = Some "minimized" ∧
  kind (toggleMinMax meta c) = kind c ∧
  minmax_parts (toggleMinMax meta c)
  = minmax_parts (minimize (set_toggleData (Some "minimized") c)).
Proof.
  intros Hm. unfold toggleMinMax. rewrite Hm. cbn [String.eqb Ascii.eqb Bool.eqb].
  cbv zeta. rewrite renderMinMax_data by reflexivity.
  change (renderMinMax None (set_toggleData (Some "minimized") c))
    with (minimize (set_toggleData (Some "minimized") c)).
  destruct (minimize_parts (set_toggleData (Some "minimized") c))
    as (_ & Hd & Hk).
  split; [exact Hd |]. split; [exact Hk |]. unfold minmax_parts; cbn [kind].
  destruct (kind (minimize (set_toggleData (Some "minimized") c)));
    reflexivity.
Qed.

Lemma toggleMinMax_min (meta : option string) (c : Cell) :
  current_mode c = "minimized" →
  toggleData (toggleMinMax meta c) = Some "maximized" ∧
  kind (toggleMinMax meta c) = kind c ∧
  minmax_parts (toggleMinMax meta c)
  = minmax_parts (maximize (set_toggleData (Some "maximized") c)).
Proof.
  intros Hm. unfold toggleMinMax. rewrite Hm. cbn [String.eqb Ascii.eqb Bool.eqb].
  cbv zeta. rewrite renderMinMax_data by reflexivity.
  change (renderMinMax None (set_toggleData (Some "maximized") c))
    with (maximize (set_toggleData (Some "maximized") c)).
  destruct (maximize_parts (set_toggleData (Some "maximized") c))
    as (_ & Hd & Hk).
  split; [exact Hd |]. split; [exact Hk |]. unfold minmax_parts; cbn [kind].
  destruct (kind (maximize (set_toggleData (Some "maximized") c)));
    reflexivity.
Qed.

Lemma current_mode_truthy (c : Cell) :
  truthy_str (Some (current_mode c)) = true.
Proof.
  unfold current_mode. destruct (toggleData c) as [m |]; [| reflexivity].
  cbn. destruct (String.eqb m "") eqn:E; cbn; [reflexivity |].
  rewrite E. reflexivity.
Qed.

Lemma current_mode_stuck (c : Cell) :
  current_mode c ≠ "maximized" → toggleData c = Some (current_mode c).
Proof.
  unfold current_mode. destruct (toggleData c) as [m |]; cbn.
  - destruct (String.eqb m ""); cbn; [congruence | reflexivity].
  - congruence.
Qed.

Lemma current_mode_of_data (c : Cell) (m : string) :
  toggleData c = Some m → m ≠ EmptyString → current_mode c = m.
Proof.
  intros Hd Hm. unfold current_mode. rewrite Hd; cbn.
  destruct (String.eqb_spec m ""); [congruence | reflexivity].
Qed.

End MinMax.

(** X14.  [toggleMinMax] goes by the mode on the cell's node, "maximized"
    when there is none, and never by the metadata.  A maximized cell
    becomes minimized, with the class hidden on each of its parts; a
    minimized cell becomes maximized, with the class on none of them; two
    toggles give back the mode.  A cell whose mode is any other text keeps
    it and its parts stay as they are: toggling cannot repair it. *)
Theorem toggleMinMax_switches (meta meta' : option string) (c : Cell) :
  (current_mode c = "maximized" →
   toggleData (toggleMinMax meta c) = Some "minimized" ∧
   Forall (fun e => "hidden" ∈ e) (minmax_parts (toggleMinMax meta c)) ∧
   current_mode (toggleMinMax meta' (toggleMinMax meta c)) = "maximized") ∧
  (current_mode c = "minimized" →
   toggleData (toggleMinMax meta c) = Some "maximized" ∧
   Forall (fun e => "hidden" ∉ e) (minmax_parts (toggleMinMax meta c)) ∧
   current_mode (toggleMinMax meta' (toggleMinMax meta c)) = "minimized") ∧
  (current_mode c ≠ "maximized" → current_mode c ≠ "minimized" →
   toggleData (toggleMinMax meta c) = toggleData c ∧
   minmax_parts (toggleMinMax meta c) = minmax_parts c) ∧
  toggleMinMax meta c = toggleMinMax meta' c.
Proof.
  split; [| split; [| split]].
  - intros Hm. destruct (toggleMinMax_max meta c Hm) as (Hd & _ & Hp).
    split; [exact Hd |]. split.
    + rewrite Hp. apply minimize_parts.
    + assert (Hm1 : current_mode (toggleMinMax meta c) = "minimized")
        by (apply current_mode_of_data; [exact Hd | discriminate]).
      destruct (toggleMinMax_min meta' _ Hm1) as (Hd' & _).
      apply current_mode_of_data; [exact Hd' | discriminate].
  - intros Hm. destruct (toggleMinMax_min meta c Hm) as (Hd & _ & Hp).
    split; [exact Hd |]. split.
    + rewrite Hp. apply maximize_parts.
    + assert (Hm1 : current_mode (toggleMinMax meta c) = "maximized")
        by (apply current_mode_of_data; [exact Hd | discriminate]).
      destruct (toggleMinMax_max meta' _ Hm1) as (Hd' & _).
      apply current_mode_of_data; [exact Hd' | discriminate].
  - intros Hmax Hmin. unfold toggleMinMax.
    destruct (String.eqb_spec (current_mode c) "maximized"); [congruence |].
    destruct (String.eqb_spec (current_mode c) "minimized"); [congruence |].
    cbv zeta.
    pose proof (current_mode_stuck c Hmax) as Hd.
    pose proof (current_mode_truthy c) as Ht.
    rewrite renderMinMax_data by exact Ht.
    unfold renderMinMax. cbn [toggleData set_toggleData].
    rewrite Ht. cbn [truthy_str negb].
    destruct (String.eqb_spec (current_mode c) "maximized"); [congruence |].
    destruct (String.eqb_spec (current_mode c) "minimized"); [congruence |].
    cbn. split; [symmetry; exact Hd |].
    unfold minmax_parts; cbn. reflexivity.
  - unfold toggleMinMax. cbv zeta.
    set (m := if (current_mode c =? "maximized")%string then "minimized"
              else if (current_mode c =? "minimized")%string then "maximized"
              else current_mode c).
    assert (Ht : truthy_str (toggleData (set_toggleData (Some m) c)) = true).
    { subst m. cbn [toggleData set_toggleData].
      destruct (current_mode c =? "maximized")%string; [reflexivity |].
      destruct (current_mode c =? "minimized")%string; [reflexivity |].
      apply current_mode_truthy. }
    rewrite (renderMinMax_data meta _ Ht), (renderMinMax_data meta' _ Ht).
    reflexivity.
Qed.

Lemma toggleMinMax_switches_witness :
  toggleData (toggleMinMax None
                (mkCell CodeCell None [] [] [∅] [∅; {["output"]}] []))
  = Some "minimized" ∧
  Forall (fun e => "hidden" ∈ e)
    (minmax_parts (toggleMinMax None
                     (mkCell CodeCell None [] [] [∅] [∅; {["output"]}] []))).
Proof.
  destruct (proj1 (toggleMinMax_switches None None
              (mkCell CodeCell None [] [] [∅] [∅; {["output"]}] []))
              eq_refl) as (Hd & Hp & _).
  split; [exact Hd | exact Hp].
Defined.

(** X15.  After [renderMinMax] the node of the cell holds a mode: the one
    it held, else the one of the metadata, else "maximized"; and with a
    mode on the node the metadata makes no difference to what is
    rendered. *)
Theorem renderMinMax_sets_mode (meta meta' : option string) (c : Cell) :
  toggleData (renderMinMax meta c) =
    (if truthy_str (toggleData c) then toggleData c
     else if truthy_str meta then meta else Some "maximized") ∧
  truthy_str (toggleData (renderMinMax meta c)) = true ∧
  (truthy_str (toggleData c) = true →
   renderMinMax meta c = renderMinMax meta' c).
Proof.
  assert (Hmode : ∀ m c0, toggleData c0 = m →
    toggleData (match m with
                | Some x =>
                    if (x =? "maximized")%string then maximize c0
                    else if (x =? "minimized")%string then minimize c0
                    else c0
                | None => c0
                end) = m).
  { intros m c0 <-. destruct (toggleData c0) as [x |] eqn:Hx; [| exact Hx].
    destruct (x =? "maximized")%string;
      [rewrite (proj1 (proj2 (maximize_parts c0))); exact Hx |].
    destruct (x =? "minimized")%string;
      [rewrite (proj1 (proj2 (minimize_parts c0))) |]; exact Hx. }
  assert (Hfirst : toggleData (renderMinMax meta c) =
    (if truthy_str (toggleData c) then toggleData c
     else if truthy_str meta then meta else Some "maximized")).
  { unfold renderMinMax.
    destruct (truthy_str meta) eqn:Hm, (truthy_str (toggleData c)) eqn:Hd;
      cbn [negb];
      first [ apply Hmode; reflexivity
            | apply (Hmode (Some "maximized")
                       (set_toggleData (Some "maximized") c)); reflexivity ]. }
  split; [exact Hfirst |]. split.
  - rewrite Hfirst.
    destruct (truthy_str (toggleData c)) eqn:Hd; [exact Hd |].
    destruct (truthy_str meta) eqn:Hm; [exact Hm | reflexivity].
  - intros Hd. rewrite (renderMinMax_data meta c Hd).
    symmetry. apply renderMinMax_data, Hd.
Qed.

Lemma renderMinMax_sets_mode_witness :
  renderMinMax (Some "maximized")
    (mkCell MarkdownCell (Some "minimized") [∅] [∅] [] [] [])
  = renderMinMax None
      (mkCell MarkdownCell (Some "minimized") [∅] [∅] [] [] []).
Proof.
  refine (proj2 (proj2 (renderMinMax_sets_mode (Some "maximized") None
            (mkCell MarkdownCell (Some "minimized") [∅] [∅] [] [] []))) _).
  reflexivity.
Defined.

(** ** The code input area *)

Section CodeArea.

Lemma toggle_class_twice (h : string) (a : gset string) :
  (if bool_decide
        (h ∈ (if bool_decide (h ∈ a) then a ∖ {[h]} else {[h]} ∪ a))
   then (if bool_decide (h ∈ a) then a ∖ {[h]} else {[h]} ∪ a) ∖ {[h]}
   else {[h]} ∪ (if bool_decide (h ∈ a) then a ∖ {[h]} else {[h]} ∪ a))
  = a.
Proof.
  destruct (decide (h ∈ a)) as [Hin | Hnin].
  - rewrite (bool_decide_eq_true_2 _ Hin).
    rewrite bool_decide_eq_false_2.
    + apply set_eq. intros x. rewrite elem_of_union, elem_of_difference,
        elem_of_singleton. destruct (decide (x = h)) as [-> | Hne]; tauto.
    + intros H. apply elem_of_difference in H as [_ H].
      apply H, elem_of_singleton. reflexivity.
  - rewrite (bool_decide_eq_false_2 _ Hnin).
    rewrite bool_decide_eq_true_2.
    + apply set_eq. intros x. rewrite elem_of_difference, elem_of_union,
        elem_of_singleton. destruct (decide (x = h)) as [-> | Hne]; tauto.
    + apply elem_of_union. left. apply elem_of_singleton. reflexivity.
Qed.

End CodeArea.

(** X16.  The three methods act on the first input area of the cell and do
    nothing when there is none, in which case the code counts as not
    showing.  After [hideCodeInputArea] the code is not showing;
    [toggleCodeInputArea] turns showing into not showing and back, and two
    toggles leave the cell as it was.  A minimized code cell does not show
    its code, a maximized one does. *)
Theorem code_input_area_toggles (c : Cell) :
  (input_area c = [] →
   isCodeShowing c = false ∧ hideCodeInputArea c = c ∧
   toggleCodeInputArea c = c) ∧
  isCodeShowing (hideCodeInputArea c) = false ∧
  (input_area c ≠ [] →
   isCodeShowing (toggleCodeInputArea c) = negb (isCodeShowing c)) ∧
  toggleCodeInputArea (toggleCodeInputArea c) = c ∧
  (kind c = CodeCell →
   isCodeShowing (minimize c) = false ∧
   (input_area c ≠ [] → isCodeShowing (maximize c) = true)).
Proof.
  split; [| split; [| split; [| split]]].
  - intros Hnil. unfold isCodeShowing, hideCodeInputArea, toggleCodeInputArea.
    rewrite Hnil. auto.
  - unfold isCodeShowing, hideCodeInputArea.
    destruct (input_area c) as [| a rest] eqn:Ha; [rewrite Ha; reflexivity |].
    cbn. rewrite bool_decide_eq_true_2; [reflexivity |].
    apply elem_of_union. left. apply elem_of_singleton. reflexivity.
  - intros Hne. unfold isCodeShowing, toggleCodeInputArea.
    destruct (input_area c) as [| a rest]; [congruence |]. cbn.
    destruct (decide ("hidden" ∈ a)) as [Hin | Hnin].
    + rewrite (bool_decide_eq_true_2 _ Hin).
      rewrite bool_decide_eq_false_2; [reflexivity |].
      intros H. apply elem_of_difference in H as [_ H].
      apply H, elem_of_singleton. reflexivity.
    + rewrite (bool_decide_eq_false_2 _ Hnin).
      rewrite bool_decide_eq_true_2; [reflexivity |].
      apply elem_of_union. left. apply elem_of_singleton. reflexivity.
  - unfold toggleCodeInputArea.
    destruct (input_area c) as [| a rest] eqn:Ha; [rewrite Ha; reflexivity |].
    cbn [input_area set_input_area]. unfold set_input_area; cbn.
    rewrite toggle_class_twice. rewrite <- Ha. destruct c; reflexivity.
  - intros Hk. unfold isCodeShowing, minimize, maximize. rewrite Hk. cbn.
    destruct (input_area c) as [| a rest]; cbn.
    + split; [reflexivity | congruence].
    + split.
      * rewrite bool_decide_eq_true_2; [reflexivity |].
        apply elem_of_union. left. apply elem_of_singleton. reflexivity.
      * intros _. rewrite bool_decide_eq_false_2; [reflexivity |].
        intros H. apply elem_of_difference in H as [_ H].
        apply H, elem_of_singleton. reflexivity.
Qed.

Lemma code_input_area_toggles_witness :
  isCodeShowing (toggleCodeInputArea
                   (mkCell CodeCell None [] [] [{["input_area"]}] [∅] []))
  = negb (isCodeShowing
            (mkCell CodeCell None [] [] [{["input_area"]}] [∅] [])).
Proof.
  refine (proj1 (proj2 (proj2 (code_input_area_toggles
            (mkCell CodeCell None [] [] [{["input_area"]}] [∅] [])))) _).
  discriminate.
Defined.

(** ** The name of the notebook *)

(** X17.  [get_notebook_name] gives the name in the metadata when there is
    one, and otherwise copies the notebook's name there and gives that.
    Asking again changes nothing, and once a name is in the metadata a new
    notebook name, as [rename] sets one, is not what is given: the name in
    the metadata is. *)
Theorem notebook_name_is_cached (nb : Notebook) (other : jsval) :
  (get_notebook_name nb).2 =
    (if truthy (metadata_name nb) then metadata_name nb
     else notebook_name nb) ∧
  metadata_name (get_notebook_name nb).1 = (get_notebook_name nb).2 ∧
  notebook_name (get_notebook_name nb).1 = notebook_name nb ∧
  get_notebook_name (get_notebook_name nb).1 = get_notebook_name nb ∧
  (truthy (get_notebook_name nb).2 = true →
   (get_notebook_name
      (mkNotebook (metadata_name (get_notebook_name nb).1) other)).2
   = (get_notebook_name nb).2).
Proof.
  destruct nb as [m n]. unfold get_notebook_name.
  cbn [metadata_name notebook_name].
  destruct (truthy m) eqn:Hm; cbn [negb fst snd metadata_name notebook_name].
  - rewrite !Hm. cbn [negb fst snd metadata_name].
    repeat split; reflexivity.
  - destruct (truthy n) eqn:Hn; cbn [negb fst snd metadata_name];
      rewrite ?Hn, ?Hm; cbn [negb fst snd metadata_name];
      (split; [reflexivity |]); (split; [reflexivity |]);
      (split; [reflexivity |]); (split; [reflexivity |]);
      [intros _; reflexivity | discriminate].
Qed.

Lemma notebook_name_is_cached_witness :
  (get_notebook_name
     (mkNotebook
        (metadata_name
           (get_notebook_name (mkNotebook Undefined (Str "Untitled"))).1)
        (Str "Renamed"))).2
  = Str "Untitled".
Proof.
  refine (proj2 (proj2 (proj2 (proj2
    (notebook_name_is_cached (mkNotebook Undefined (Str "Untitled"))
       (Str "Renamed"))))) _).
  reflexivity.
Defined.
